(** * DelphiOracle: a shallow embedding of [contract/oracle.cpp]

    The contract keeps three [eosio::multi_index] tables (the price
    datapoints [eosusd], the per-account write statistics [eosusdstats]
    and the approved [oracles]) and exposes three actions: [write],
    [setoracles] and [clear].

    - A [uint64_t] is a [Z]; every place where the C++ arithmetic can
      leave the range [0, 2^64) is written with [wrap64].
    - A table is the list of its rows in ascending primary-key order,
      which is the order in which [begin()] .. [end()] walks it.
    - The body of an action is a function from the database to an
      [outcome]: either it runs to the end ([Done]) or an assertion
      stops it ([Abort]).  [Abort] carries the database as it was when
      the assertion fired, so that the theorems can tell what had been
      touched before the host rolls the action back ([commit]). *)

From Stdlib Require Import String Ascii ZArith List Bool Lia.
From Stdlib Require Import Permutation Sorted.
From Equations Require Import Equations.
Import ListNotations.
Open Scope Z_scope.

(** ** Machine integers and account names *)

Definition uint64_modulus : Z := Eval vm_compute in 2 ^ 64.

(** [std::numeric_limits<unsigned long long>::max()] *)
Definition uint64_max : Z := Eval vm_compute in uint64_modulus - 1.

Definition wrap64 (z : Z) : Z := z mod uint64_modulus.

Arguments uint64_modulus : simpl never.
Arguments uint64_max : simpl never.
Arguments wrap64 : simpl never.

Definition is_uint64 (z : Z) : bool := (0 <=? z) && (z <? uint64_modulus).

Definition account_name : Type := Z.

(** The platform's [N(...)] macro: base-32 encoding of a name of at
    most 12 characters into the high 60 bits of a [uint64_t]. *)
Definition char_to_symbol (c : ascii) : Z :=
  let n := Z.of_nat (nat_of_ascii c) in
  if (97 <=? n) && (n <=? 122) then n - 97 + 6
  else if (49 <=? n) && (n <=? 53) then n - 49 + 1
  else 0.

Fixpoint string_to_name_from (i : nat) (s : string) : Z :=
  match s with
  | EmptyString => 0
  | String c rest =>
      Z.lor (Z.shiftl (Z.land (char_to_symbol c) 31) (64 - 5 * (Z.of_nat i + 1)))
            (string_to_name_from (S i) rest)
  end.

Definition N (s : string) : account_name := string_to_name_from 0 s.

(** ** Constants of the contract *)

(** Controlling account *)
Definition titan_account : account_name := Eval vm_compute in N "eostitanprod".

(** Number of datapoints to hold *)
Definition datapoints_count : Z := 21.

(** Min value set to 0.01$, max value set to 10,000$ *)
Definition val_min : Z := 100.
Definition val_max : Z := 100000000.

(** [one_minute = 1000000 * 55], in microseconds *)
Definition one_minute : Z := 1000000 * 55.

(** ** Rows of the three tables *)

Class Keyed (R : Type) : Type := primary_key : R -> Z.

Module eosusd.
Record row : Type := mk
  { id : Z;
    owner : account_name;
    value : Z;
    average : Z;
    timestamp : Z }.

Definition by_timestamp (r : row) : Z := timestamp r.
Definition by_value (r : row) : Z := value r.

Definition set_average (a : Z) (r : row) : row :=
  {| id := id r; owner := owner r; value := value r;
     average := a; timestamp := timestamp r |}.
End eosusd.

Module eosusdstats.
Record row : Type := mk
  { owner : account_name;
    timestamp : Z;
    count : Z }.
End eosusdstats.

Module oracles.
Record row : Type := mk { owner : account_name }.
End oracles.

#[export] Instance eosusd_key : Keyed eosusd.row := eosusd.id.
#[export] Instance eosusdstats_key : Keyed eosusdstats.row := eosusdstats.owner.
#[export] Instance oracles_key : Keyed oracles.row := oracles.owner.

(** ** The primary index of a [multi_index] table *)

Section MultiIndex.
Context {R : Type} {key : Keyed R}.

(** [begin()]: the row with the smallest primary key. *)
Definition begin (t : list R) : option R := hd_error t.

(** [end()] followed by [--]: the row with the largest primary key. *)
Fixpoint back (t : list R) : option R :=
  match t with
  | [] => None
  | [r] => Some r
  | _ :: rest => back rest
  end.

(** [find(k)]: the row stored under primary key [k], if any. *)
Fixpoint find (k : Z) (t : list R) : option R :=
  match t with
  | [] => None
  | r :: rest => if primary_key r =? k then Some r else find k rest
  end.

(** [erase(itr)], the iterator being given by the key of its row. *)
Fixpoint erase (k : Z) (t : list R) : list R :=
  match t with
  | [] => []
  | r :: rest => if primary_key r =? k then rest else r :: erase k rest
  end.

(** [modify(itr, payer, updater)]; no updater of this contract changes
    the primary key. *)
Fixpoint modify (k : Z) (f : R -> R) (t : list R) : list R :=
  match t with
  | [] => []
  | r :: rest => if primary_key r =? k then f r :: rest else r :: modify k f rest
  end.

(** [emplace(payer, constructor)] puts the new row at its place in key
    order.  Primary keys are unique: the host's [db_store_i64] refuses a
    second row under a key that is already present, which stops the
    action ([None]). *)
Fixpoint emplace (r : R) (t : list R) : option (list R) :=
  match t with
  | [] => Some [r]
  | x :: rest =>
      if primary_key r <? primary_key x then Some (r :: t)
      else if primary_key r =? primary_key x then None
      else option_map (cons x) (emplace r rest)
  end.

(** Rows in strictly ascending key order. *)
Fixpoint ascending (t : list R) : bool :=
  match t with
  | [] => true
  | r :: rest =>
      match rest with
      | [] => true
      | r' :: _ => (primary_key r <? primary_key r') && ascending rest
      end
  end.

Definition key_lt (a b : R) : Prop := primary_key a < primary_key b.

(** A table as the host keeps it: rows in strictly ascending key order,
    every key a [uint64_t]. *)
Definition well_keyed (t : list R) : bool :=
  ascending t && forallb (fun r => is_uint64 (primary_key r)) t.

End MultiIndex.

Definition inspect {A : Type} (a : A) : {b : A | a = b} := exist _ a eq_refl.

(** The loop
    [while (t.begin() != t.end()) { auto itr = t.end(); itr--; t.erase(itr); }]
    of [setoracles] and [clear]: as long as the table has a last row,
    that row is erased. *)
Equations? erase_all {R : Type} {key : Keyed R} (t : list R) : list R
  by wf (length t) lt :=
  erase_all t with inspect (back t) => {
    | exist _ None _ := t;
    | exist _ (Some r) e := erase_all (erase (primary_key r) t) }.
Proof.
  clear erase_all. revert r e.
  induction t as [|x t IH]; simpl; [discriminate|].
  destruct t as [|y t]; intros r Hb.
  - injection Hb as ->. rewrite Z.eqb_refl. simpl. lia.
  - destruct (primary_key x =? primary_key r); simpl in *; [lia|].
    specialize (IH r Hb). lia.
Qed.

(** ** The database, the host and the action monad *)

(** The three tables, named after their [typedef]s. *)
Record database : Type :=
  { usdtable : list eosusd.row;
    statstable : list eosusdstats.row;
    oraclestable : list oracles.row }.

Definition empty_database : database :=
  {| usdtable := []; statstable := []; oraclestable := [] |}.

(** What the host supplies to one action: the clock, the accounts that
    authorised the action, the active producer schedule, and the
    content of the memory in which [emplace] builds a row before the
    constructor has filled it. *)
Record host : Type :=
  { current_time : Z;
    authorization : list account_name;
    active_producers : list account_name;
    uninitialized : Z }.

Inductive outcome (A : Type) : Type :=
| Done (a : A) (db : database)
| Abort (msg : string) (db : database).

Arguments Done {A} a db.
Arguments Abort {A} msg db.

Definition action (A : Type) : Type := database -> outcome A.

Definition ret {A : Type} (a : A) : action A := fun db => Done a db.

Definition bind {A B : Type} (c : action A) (k : A -> action B) : action B :=
  fun db =>
    match c db with
    | Done a db' => k a db'
    | Abort msg db' => Abort msg db'
    end.

Notation "x <- c1 ;; c2" := (bind c1 (fun x => c2))
  (at level 61, c1 at next level, right associativity).
Notation "c1 ;; c2" := (bind c1 (fun _ => c2))
  (at level 61, right associativity).

(** The host undoes every write of an action that stopped. *)
Definition commit {A : Type} (db : database) (o : outcome A) : database :=
  match o with
  | Done _ db' => db'
  | Abort _ _ => db
  end.

Definition eosio_assert (test : bool) (msg : string) : action unit :=
  fun db => if test then Done tt db else Abort msg db.

Definition has_auth (h : host) (a : account_name) : bool :=
  existsb (Z.eqb a) (authorization h).

Definition require_auth (h : host) (a : account_name) : action unit :=
  eosio_assert (has_auth h a) "missing required authority".

(** An iterator that may be [end()]. *)
Definition deref {R : Type} (itr : option R) : action R :=
  fun db =>
    match itr with
    | Some r => Done r db
    | None => Abort "dereference of end iterator" db
    end.

Definition duplicate_key : string :=
  "could not insert object, most likely a uniqueness constraint was violated".

(** *** Access to [usdtable] *)

Definition with_usdtable (t : list eosusd.row) (db : database) : database :=
  {| usdtable := t; statstable := statstable db; oraclestable := oraclestable db |}.

Definition usdstore_erase (r : eosusd.row) : action unit :=
  fun db => Done tt (with_usdtable (erase (primary_key r) (usdtable db)) db).

(** Returns the iterator to the new row, that is its key. *)
Definition usdstore_emplace (r : eosusd.row) : action Z :=
  fun db =>
    match emplace r (usdtable db) with
    | Some t => Done (primary_key r) (with_usdtable t db)
    | None => Abort duplicate_key db
    end.

Definition usdstore_modify (itr : Z) (f : eosusd.row -> eosusd.row) : action unit :=
  fun db => Done tt (with_usdtable (modify itr f (usdtable db)) db).

(** [get_index<N(value)>()]: the rows in ascending order of [by_value],
    rows of equal value in ascending order of primary key. *)
Definition value_before (a b : eosusd.row) : bool :=
  (eosusd.by_value a <? eosusd.by_value b)
  || ((eosusd.by_value a =? eosusd.by_value b) && (eosusd.id a <=? eosusd.id b)).

Fixpoint insert_by_value (r : eosusd.row) (l : list eosusd.row) : list eosusd.row :=
  match l with
  | [] => [r]
  | x :: rest => if value_before r x then r :: l else x :: insert_by_value r rest
  end.

Definition value_index (t : list eosusd.row) : list eosusd.row :=
  fold_right insert_by_value [] t.

(** An iterator of the value index is the part of the index that lies
    at and after it; [end()] is the empty part. *)
Definition value_itr : Type := list eosusd.row.

(** [itr++] *)
Definition incr (itr : value_itr) : action value_itr :=
  fun db =>
    match itr with
    | _ :: rest => Done rest db
    | [] => Abort "cannot increment end iterator" db
    end.

(** [for (int i = 0; i<9;i++){ itr++; avg+=itr->value; }] with [n]
    rounds left. *)
Fixpoint next_values (n : nat) (itr : value_itr) (avg : Z) : action Z :=
  match n with
  | O => ret avg
  | S n' =>
      itr' <- incr itr ;;
      r <- deref (hd_error itr') ;;
      next_values n' itr' (wrap64 (avg + eosusd.value r))
  end.

(** *** Access to [statstable] and [oraclestable] *)

Definition with_statstable (t : list eosusdstats.row) (db : database) : database :=
  {| usdtable := usdtable db; statstable := t; oraclestable := oraclestable db |}.

Definition with_oraclestable (t : list oracles.row) (db : database) : database :=
  {| usdtable := usdtable db; statstable := statstable db; oraclestable := t |}.

Definition store_modify (itr : Z) (f : eosusdstats.row -> eosusdstats.row) : action unit :=
  fun db => Done tt (with_statstable (modify itr f (statstable db)) db).

Definition store_emplace (r : eosusdstats.row) : action Z :=
  fun db =>
    match emplace r (statstable db) with
    | Some t => Done (primary_key r) (with_statstable t db)
    | None => Abort duplicate_key db
    end.

Definition oracles_emplace (r : oracles.row) : action Z :=
  fun db =>
    match emplace r (oraclestable db) with
    | Some t => Done (primary_key r) (with_oraclestable t db)
    | None => Abort duplicate_key db
    end.

(** ** The contract *)

(** The [while] loop of [check_oracle] over the approved oracles. *)
Fixpoint approved (owner : account_name) (itr : list oracles.row) : bool :=
  match itr with
  | [] => false
  | r :: rest => if oracles.owner r =? owner then true else approved owner rest
  end.

(** [get_active_producers(producers, sizeof(account_name)*21)]: the host
    copies as many names of the active schedule as fit into the buffer
    and leaves the rest of the buffer as it was. *)
Definition get_active_producers (h : host) (buffer : list account_name)
  : list account_name :=
  let copied := firstn (length buffer) (active_producers h) in
  copied ++ skipn (length copied) buffer.

(** [for(int i = 0; i < 21; i=i+1 ) if (producers[i] == owner) return true;]
    with [n] rounds left. *)
Fixpoint producers_loop (owner : account_name) (producers : list account_name)
  (i : nat) (n : nat) : bool :=
  match n with
  | O => false
  | S n' =>
      if nth i producers 0 =? owner then true
      else producers_loop owner producers (S i) n'
  end.

(** Check if calling account is a qualified oracle *)
Definition check_oracle (h : host) (owner : account_name) : action bool :=
  fun db =>
    if approved owner (oraclestable db) then Done true db
    else
      let producers := get_active_producers h (repeat 0 21) in
      Done (producers_loop owner producers 0 21) db.

Definition too_early : string := "can only call every 60 seconds".

(** Ensure account cannot push data more often than every 60 seconds *)
Definition check_last_push (h : host) (owner : account_name) : action unit :=
  fun db =>
    match find owner (statstable db) with
    | Some _ =>
        (let ctime := current_time h in
         last <- deref (find owner (statstable db)) ;;
         eosio_assert (wrap64 (eosusdstats.timestamp last + one_minute) <=? ctime)
           too_early ;;
         store_modify owner (fun s =>
           {| eosusdstats.owner := eosusdstats.owner s;
              eosusdstats.timestamp := ctime;
              eosusdstats.count := wrap64 (eosusdstats.count s + 1) |})) db
    | None =>
        (store_emplace
           {| eosusdstats.owner := owner;
              eosusdstats.timestamp := current_time h;
              eosusdstats.count := 0 |} ;;
         ret tt) db
    end.

(** Push oracle message on top of queue, pop oldest element if queue
    size is larger than X *)
Definition update_eosusd_oracle (h : host) (owner : account_name) (value : Z)
  : action unit :=
  fun db =>
    let usdstore := usdtable db in
    let size := Z.of_nat (length usdstore) in
    if 0 <? size then
      ((* Calculate new primary key by substracting one from the previous one *)
       latest <- deref (begin usdstore) ;;
       let primary_key := wrap64 (eosusd.id latest - 1) in
       (* If new size is greater than the max number of datapoints count *)
       if datapoints_count <? size + 1 then
         (* Pop oldest point *)
         oldest <- deref (back usdstore) ;;
         usdstore_erase oldest ;;
         (* Insert next datapoint *)
         c_itr <- usdstore_emplace
                    {| eosusd.id := primary_key;
                       eosusd.owner := owner;
                       eosusd.value := value;
                       eosusd.average := uninitialized h;
                       eosusd.timestamp := current_time h |} ;;
         (fun db' =>
            ((* Get index sorted by value *)
             let value_sorted := value_index (usdtable db') in
             (* skip first 6 values *)
             itr <- ret value_sorted ;;
             itr <- incr itr ;;
             itr <- incr itr ;;
             itr <- incr itr ;;
             itr <- incr itr ;;
             itr <- incr itr ;;
             (* get next 9 values *)
             avg <- next_values 9 itr 0 ;;
             (* calculate average *)
             usdstore_modify c_itr (eosusd.set_average (avg / 9))) db')
       else
         (* No average is calculated until the expected number of
            datapoints have been received *)
         usdstore_emplace
           {| eosusd.id := primary_key;
              eosusd.owner := owner;
              eosusd.value := value;
              eosusd.average := value;
              eosusd.timestamp := current_time h |} ;;
         ret tt) db
    else
      (usdstore_emplace
         {| eosusd.id := uint64_max;
            eosusd.owner := owner;
            eosusd.value := value;
            eosusd.average := value;
            eosusd.timestamp := current_time h |} ;;
       ret tt) db.

Definition out_of_range : string := "value outside of allowed range".
Definition not_qualified : string :=
  "account is not an active producer or approved oracle".

(** Write datapoint *)
Definition write (h : host) (owner : account_name) (value : Z) : action unit :=
  require_auth h owner ;;
  eosio_assert ((val_min <=? value) && (value <=? val_max)) out_of_range ;;
  qualified <- check_oracle h owner ;;
  eosio_assert qualified not_qualified ;;
  check_last_push h owner ;;
  update_eosusd_oracle h owner value.

(** [for(const account_name& oracle : oracleslist) oracles.emplace(...)] *)
Fixpoint emplace_oracles (oracleslist : list account_name) : action unit :=
  match oracleslist with
  | [] => ret tt
  | oracle :: rest =>
      oracles_emplace {| oracles.owner := oracle |} ;;
      emplace_oracles rest
  end.

(** Update oracles list *)
Definition setoracles (h : host) (oracleslist : list account_name) : action unit :=
  require_auth h titan_account ;;
  (fun db => Done tt (with_oraclestable (erase_all (oraclestable db)) db)) ;;
  emplace_oracles oracleslist.

(** Clear all data *)
Definition clear (h : host) : action unit :=
  require_auth h titan_account ;;
  (fun db => Done tt (with_statstable (erase_all (statstable db)) db)) ;;
  (fun db => Done tt (with_usdtable (erase_all (usdtable db)) db)) ;;
  (fun db => Done tt (with_oraclestable (erase_all (oraclestable db)) db)).

(** ** Histories of the contract *)

Inductive call : Type :=
| Write (owner : account_name) (value : Z)
| Setoracles (oracleslist : list account_name)
| Clear.

Definition run_call (h : host) (c : call) : action unit :=
  match c with
  | Write owner value => write h owner value
  | Setoracles oracleslist => setoracles h oracleslist
  | Clear => clear h
  end.

(** The database after a history of actions, each under its own host
    data; an action that stops leaves the database as it found it. *)
Fixpoint replay (history : list (host * call)) (db : database) : database :=
  match history with
  | [] => db
  | (h, c) :: rest => replay rest (commit db (run_call h c db))
  end.

(** A run of accepted datapoints: [update_eosusd_oracle] once per
    datapoint, in the order given. *)
Fixpoint insert_all (points : list (host * account_name * Z)) : action unit :=
  match points with
  | [] => ret tt
  | (h, owner, value) :: rest =>
      update_eosusd_oracle h owner value ;; insert_all rest
  end.

(** What identifies a datapoint in the window: key, owner, value, time. *)
Definition label (r : eosusd.row) : Z * account_name * Z * Z :=
  (eosusd.id r, eosusd.owner r, eosusd.value r, eosusd.timestamp r).

(** The datapoints of a run in insertion order, the one inserted after
    [k] others carrying the key [uint64_max - k]. *)
Fixpoint numbered (k : Z) (points : list (host * account_name * Z))
  : list (Z * account_name * Z * Z) :=
  match points with
  | [] => []
  | (h, owner, value) :: rest =>
      (uint64_max - k, owner, value, current_time h) :: numbered (k + 1) rest
  end.

(** ** Vocabulary of the properties *)

Definition sum (l : list Z) : Z := fold_right Z.add 0 l.

Definition values (t : list eosusd.row) : list Z := map eosusd.value t.

Fixpoint insert_value (v : Z) (l : list Z) : list Z :=
  match l with
  | [] => [v]
  | x :: rest => if v <=? x then v :: l else x :: insert_value v rest
  end.

(** The values of a window from the smallest to the largest. *)
Definition ranked (t : list eosusd.row) : list Z :=
  fold_right insert_value [] (values t).

(** The average that the code stores: the values ranked 7th to 15th. *)
Definition trimmed_average (t : list eosusd.row) : Z :=
  wrap64 (sum (firstn 9 (skipn 6 (ranked t)))) / 9.

(** The average as the specification words it: skip the 5 smallest
    values, take the next 9 (ranked 6th to 14th), divide by 9. *)
Definition spec_trimmed_average (t : list eosusd.row) : Z :=
  sum (firstn 9 (skipn 5 (ranked t))) / 9.

(** The allow-list as the specification words it: an identity is in it
    when some row of [oraclestable] carries it. *)
Definition in_allow_list (a : account_name) (db : database) : Prop :=
  In a (map oracles.owner (oraclestable db)).

(** The invariant of the window along every history. *)
Definition window_inv (t : list eosusd.row) : Prop :=
  well_keyed t = true /\
  (length t <= 21)%nat /\
  ((length t < 21)%nat ->
   forall newest, begin t = Some newest ->
                  eosusd.id newest = uint64_modulus - Z.of_nat (length t)).

Definition value_in_range (r : eosusd.row) : Prop :=
  val_min <= eosusd.value r <= val_max.

(** ** Concrete hosts, histories and databases *)

Definition alice : account_name := Eval vm_compute in N "alice".
Definition bob : account_name := Eval vm_compute in N "bob".
Definition eosio : account_name := Eval vm_compute in N "eosio".

(** A chain whose only active producer is [eosio], the action being
    authorised by [who] at second [sec]. *)
Definition host_at (sec : Z) (who : account_name) : host :=
  {| current_time := sec * 1000000;
     authorization := [who];
     active_producers := [eosio];
     uninitialized := 12345 |}.

(** [titan_account] approves [alice] and [bob]; then [alice] writes once
    a minute the values 100, 200, ... *)
Definition approve : host * call :=
  (host_at 0 titan_account, Setoracles [alice; bob]).

Definition minute_writes (n : nat) : list (host * call) :=
  map (fun k => (host_at (60 * Z.of_nat k) alice, Write alice (100 * Z.of_nat k)))
      (seq 1 n).

Definition db_after (n : nat) : database :=
  replay (approve :: minute_writes n) empty_database.

(** A full window whose newest key is 0, as after 2^64 accepted
    datapoints: keys 0 .. 20, values 2100 down to 100. *)
Definition wrapped_window : list eosusd.row :=
  map (fun k => {| eosusd.id := Z.of_nat k;
                   eosusd.owner := alice;
                   eosusd.value := 100 * (21 - Z.of_nat k);
                   eosusd.average := 100 * (21 - Z.of_nat k);
                   eosusd.timestamp := 60000000 * (21 - Z.of_nat k) |})
      (seq 0 21).

Definition wrapped_db : database :=
  {| usdtable := wrapped_window; statstable := []; oraclestable := [] |}.

(** ** Vocabulary of the further properties *)

(** A call that leaves the row of [owner] in [statstable] alone, whether
    it runs to the end or not: a [write] of another account or a
    [setoracles]. *)
Definition keeps_row (owner : account_name) (c : call) : bool :=
  match c with
  | Write w _ => negb (w =? owner)
  | Setoracles _ => true
  | Clear => false
  end.

(** The number of writes of [owner] that ran to the end in a history
    since the last [clear] that ran to the end, [n] being the number
    before the history. *)
Fixpoint accepted_writes (owner : account_name) (history : list (host * call))
  (db : database) (n : nat) : nat :=
  match history with
  | [] => n
  | (h, c) :: rest =>
      let o := run_call h c db in
      let n' :=
        match o, c with
        | Done _ _, Write w _ => if w =? owner then S n else n
        | Done _ _, Clear => O
        | _, _ => n
        end in
      accepted_writes owner rest (commit db o) n'
  end.

(** A datapoint whose value and whose average are within
    [val_min, val_max]. *)
Definition stored_in_range (r : eosusd.row) : Prop :=
  val_min <= eosusd.value r <= val_max /\ val_min <= eosusd.average r <= val_max.

(** Messages with which only the host stops an action. *)
Definition host_message (m : string) : Prop :=
  m = "dereference of end iterator"%string \/
  m = duplicate_key \/
  m = "cannot increment end iterator"%string.

(** * Properties *)

(** ** The primary index *)

Section MultiIndexFacts.
Context {R : Type} {key : Keyed R}.

Lemma ascending_sorted (t : list R) :
  ascending t = true <-> StronglySorted key_lt t.
Proof.
  split.
  - intros H. apply Sorted_StronglySorted.
    + intros a b c. unfold key_lt. lia.
    + induction t as [|x t IH]; [constructor|].
      simpl in H. destruct t as [|y t].
      * repeat constructor.
      * apply andb_true_iff in H. destruct H as [Hxy Ht].
        constructor; [apply IH; exact Ht|].
        constructor. unfold key_lt. lia.
  - induction 1 as [|x t Ht IH Hall]; [reflexivity|].
    simpl. destruct t as [|y t]; [reflexivity|].
    apply andb_true_iff. split; [|exact IH].
    inversion Hall; subst. unfold key_lt in *. lia.
Qed.

Lemma ascending_tail (x : R) (t : list R) :
  ascending (x :: t) = true -> ascending t = true.
Proof.
  rewrite !ascending_sorted. intros H. inversion H; assumption.
Qed.

Lemma ascending_head (x : R) (t : list R) :
  ascending (x :: t) = true -> Forall (key_lt x) t.
Proof.
  rewrite ascending_sorted. intros H. inversion H; assumption.
Qed.

Lemma back_snoc (t : list R) (r : R) : back (t ++ [r]) = Some r.
Proof.
  induction t as [|x t IH]; [reflexivity|].
  simpl. destruct (t ++ [r]) eqn:E; [destruct t; discriminate|exact IH].
Qed.

Lemma back_split (t : list R) (r : R) :
  back t = Some r -> t = removelast t ++ [r].
Proof.
  induction t as [|x t IH]; [discriminate|].
  destruct t as [|y t].
  - simpl. intros [= ->]. reflexivity.
  - intros H. change (back (y :: t) = Some r) in H.
    change (x :: y :: t = x :: (removelast (y :: t) ++ [r])).
    f_equal. apply IH. exact H.
Qed.

Lemma back_nonempty (x : R) (t : list R) : exists r, back (x :: t) = Some r.
Proof.
  revert x. induction t as [|y t IH]; intros x; [exists x; reflexivity|].
  destruct (IH y) as [r Hr]. exists r. exact Hr.
Qed.

Lemma ascending_snoc (t : list R) (r : R) :
  ascending (t ++ [r]) = true ->
  ascending t = true /\ Forall (fun x => key_lt x r) t.
Proof.
  induction t as [|x t IH]; [intros _; split; [reflexivity|constructor]|].
  intros H. simpl app in H.
  pose proof (ascending_head _ _ H) as Hx.
  apply ascending_tail in H. destruct (IH H) as [Ht Hall].
  split.
  - apply ascending_sorted. constructor; [apply ascending_sorted; exact Ht|].
    apply Forall_app in Hx. tauto.
  - constructor; [|exact Hall].
    apply Forall_app in Hx. destruct Hx as [_ Hr]. inversion Hr; assumption.
Qed.

Lemma erase_snoc (t : list R) (r : R) :
  Forall (fun x => primary_key x <> primary_key r) t ->
  erase (primary_key r) (t ++ [r]) = t.
Proof.
  induction 1 as [|x t Hx Ht IH]; simpl.
  - rewrite Z.eqb_refl. reflexivity.
  - destruct (Z.eqb_spec (primary_key x) (primary_key r)); [contradiction|].
    rewrite IH. reflexivity.
Qed.

Lemma emplace_front (r x : R) (t : list R) :
  primary_key r < primary_key x -> emplace r (x :: t) = Some (r :: x :: t).
Proof.
  intros H. simpl. destruct (Z.ltb_spec (primary_key r) (primary_key x)); [reflexivity|lia].
Qed.

Lemma emplace_snoc (r : R) (t : list R) :
  Forall (fun x => key_lt x r) t -> emplace r t = Some (t ++ [r]).
Proof.
  induction 1 as [|x t Hx Ht IH]; [reflexivity|].
  unfold key_lt in Hx. simpl.
  destruct (Z.ltb_spec (primary_key r) (primary_key x)); [lia|].
  destruct (Z.eqb_spec (primary_key r) (primary_key x)); [lia|].
  rewrite IH. reflexivity.
Qed.

Lemma emplace_fresh (r : R) (t : list R) :
  Forall (fun x => primary_key x <> primary_key r) t ->
  exists t', emplace r t = Some t' /\ Permutation t' (r :: t).
Proof.
  induction 1 as [|x t Hx Ht IH]; [exists [r]; split; [reflexivity|apply Permutation_refl]|].
  simpl. destruct (primary_key r <? primary_key x).
  - eexists; split; [reflexivity|apply Permutation_refl].
  - destruct (Z.eqb_spec (primary_key r) (primary_key x)); [congruence|].
    destruct IH as [t' [E P]]. rewrite E. simpl.
    exists (x :: t'). split; [reflexivity|].
    apply Permutation_trans with (x :: r :: t); [constructor; exact P|constructor].
Qed.

Lemma emplace_duplicate (r : R) (t : list R) :
  ascending t = true ->
  Exists (fun x => primary_key x = primary_key r) t ->
  emplace r t = None.
Proof.
  induction t as [|x t IH]; intros Ha He; [inversion He|].
  simpl. pose proof (ascending_head _ _ Ha) as Hx.
  inversion He as [? ? Heq|? ? Hrest]; subst.
  - rewrite Heq, Z.ltb_irrefl, Z.eqb_refl. reflexivity.
  - apply Exists_exists in Hrest. destruct Hrest as [y [Hy Hk]].
    rewrite Forall_forall in Hx. specialize (Hx y Hy). unfold key_lt in Hx.
    destruct (Z.ltb_spec (primary_key r) (primary_key x)); [lia|].
    destruct (Z.eqb_spec (primary_key r) (primary_key x)); [reflexivity|].
    rewrite IH; [reflexivity|eapply ascending_tail; exact Ha|].
    apply Exists_exists. exists y. tauto.
Qed.

Lemma emplace_ascending (r : R) (t t' : list R) :
  ascending t = true -> emplace r t = Some t' -> ascending t' = true.
Proof.
  revert t'. induction t as [|x t IH]; intros t' Ha E.
  - injection E as <-. reflexivity.
  - simpl in E. destruct (Z.ltb_spec (primary_key r) (primary_key x)).
    + injection E as <-.
      change (ascending (r :: x :: t)) with ((primary_key r <? primary_key x) && ascending (x :: t)).
      rewrite Ha. apply andb_true_iff. split; [apply Z.ltb_lt; exact H|reflexivity].
    + destruct (Z.eqb_spec (primary_key r) (primary_key x)); [discriminate|].
      destruct (emplace r t) as [u|] eqn:Eu; [|discriminate].
      injection E as <-.
      pose proof (ascending_head _ _ Ha) as Hx.
      apply ascending_sorted. constructor.
      * apply ascending_sorted. apply IH; [eapply ascending_tail; exact Ha|reflexivity].
      * assert (P : forall u', emplace r t = Some u' -> Forall (key_lt x) u').
        { clear IH Ha Eu. induction Hx as [|y t Hy Ht IHx]; intros u' Eu'.
          - injection Eu' as <-. repeat constructor. unfold key_lt. lia.
          - simpl in Eu'. destruct (primary_key r <? primary_key y).
            + injection Eu' as <-. repeat constructor; try assumption. unfold key_lt. lia.
            + destruct (primary_key r =? primary_key y); [discriminate|].
              destruct (emplace r t) as [w|]; [|discriminate].
              injection Eu' as <-. constructor; [exact Hy|]. apply IHx. reflexivity. }
        apply P. exact Eu.
Qed.

Lemma modify_emplace (f : R -> R) (r : R) (t t' : list R) :
  primary_key (f r) = primary_key r ->
  emplace r t = Some t' ->
  emplace (f r) t = Some (modify (primary_key r) f t').
Proof.
  intros Hk. revert t'. induction t as [|x t IH]; intros t' E.
  - injection E as <-. simpl. rewrite Z.eqb_refl. reflexivity.
  - simpl in E |- *. rewrite Hk.
    destruct (primary_key r <? primary_key x).
    + injection E as <-. simpl. rewrite Z.eqb_refl. reflexivity.
    + destruct (Z.eqb_spec (primary_key r) (primary_key x)) as [|Hne]; [discriminate|].
      destruct (emplace r t) as [u|]; [|discriminate].
      injection E as <-. rewrite (IH u eq_refl). simpl.
      destruct (Z.eqb_spec (primary_key x) (primary_key r)); [congruence|reflexivity].
Qed.

Lemma find_emplace (r : R) (t t' : list R) :
  emplace r t = Some t' -> find (primary_key r) t' = Some r.
Proof.
  revert t'. induction t as [|x t IH]; intros t' E.
  - injection E as <-. simpl. rewrite Z.eqb_refl. reflexivity.
  - simpl in E. destruct (primary_key r <? primary_key x).
    + injection E as <-. simpl. rewrite Z.eqb_refl. reflexivity.
    + destruct (Z.eqb_spec (primary_key r) (primary_key x)) as [|Hne]; [discriminate|].
      destruct (emplace r t) as [u|]; [|discriminate].
      injection E as <-. simpl.
      destruct (Z.eqb_spec (primary_key x) (primary_key r)); [congruence|].
      apply IH. reflexivity.
Qed.

Lemma find_emplace_other (k : Z) (r : R) (t t' : list R) :
  k <> primary_key r -> emplace r t = Some t' -> find k t' = find k t.
Proof.
  intros Hk. revert t'. induction t as [|x t IH]; intros t' E.
  - injection E as <-. simpl.
    destruct (Z.eqb_spec (primary_key r) k); [congruence|reflexivity].
  - simpl in E. destruct (primary_key r <? primary_key x).
    + injection E as <-. simpl.
      destruct (Z.eqb_spec (primary_key r) k); [congruence|reflexivity].
    + destruct (primary_key r =? primary_key x); [discriminate|].
      destruct (emplace r t) as [u|]; [|discriminate].
      injection E as <-. simpl. rewrite (IH u eq_refl). reflexivity.
Qed.

Lemma find_none_fresh (k : Z) (t : list R) :
  find k t = None <-> Forall (fun x => primary_key x <> k) t.
Proof.
  induction t as [|x t IH]; simpl.
  - split; [constructor|reflexivity].
  - destruct (Z.eqb_spec (primary_key x) k).
    + split; [discriminate|]. intros H. inversion H; contradiction.
    + rewrite IH. split; [intros H; constructor; assumption|intros H; inversion H; assumption].
Qed.

Lemma find_modify (k : Z) (f : R -> R) (t : list R) (r : R) :
  primary_key (f r) = primary_key r ->
  find k t = Some r -> find k (modify k f t) = Some (f r).
Proof.
  intros Hk. induction t as [|x t IH]; simpl; [discriminate|].
  destruct (Z.eqb_spec (primary_key x) k) as [e|ne].
  - intros [= ->]. simpl. rewrite Hk, e, Z.eqb_refl. reflexivity.
  - intros H. simpl. destruct (Z.eqb_spec (primary_key x) k); [contradiction|].
    apply IH. exact H.
Qed.

Lemma find_modify_other (k k' : Z) (f : R -> R) (t : list R) :
  (forall x, primary_key (f x) = primary_key x) ->
  k' <> k -> find k' (modify k f t) = find k' t.
Proof.
  intros Hf Hk. induction t as [|x t IH]; simpl; [reflexivity|].
  destruct (Z.eqb_spec (primary_key x) k) as [e|ne]; simpl.
  - rewrite Hf. destruct (Z.eqb_spec (primary_key x) k'); [congruence|reflexivity].
  - rewrite IH. reflexivity.
Qed.

(** The erasing loop always ends, with an empty table. *)
Lemma erase_all_empty (t : list R) : erase_all t = [].
Proof.
  funelim (erase_all t).
  - assumption.
  - destruct t as [|x t]; [reflexivity|].
    destruct (back_nonempty x t) as [y Hy]. congruence.
Qed.

End MultiIndexFacts.

(** ** The value index and the ranking of values *)

Lemma insert_by_value_perm (r : eosusd.row) (l : list eosusd.row) :
  Permutation (insert_by_value r l) (r :: l).
Proof.
  induction l as [|x l IH]; simpl; [apply Permutation_refl|].
  destruct (value_before r x); [apply Permutation_refl|].
  apply Permutation_trans with (x :: r :: l); [constructor; exact IH|constructor].
Qed.

Lemma value_index_perm (t : list eosusd.row) : Permutation (value_index t) t.
Proof.
  induction t as [|x t IH]; simpl; [constructor|].
  apply Permutation_trans with (x :: value_index t);
    [apply insert_by_value_perm|constructor; exact IH].
Qed.

Lemma value_before_le (a b : eosusd.row) :
  value_before a b = true -> eosusd.value a <= eosusd.value b.
Proof.
  unfold value_before, eosusd.by_value. intros H.
  apply orb_true_iff in H. destruct H as [H|H]; [lia|].
  apply andb_true_iff in H. lia.
Qed.

Lemma value_before_ge (a b : eosusd.row) :
  value_before a b = false -> eosusd.value b <= eosusd.value a.
Proof.
  unfold value_before, eosusd.by_value. intros H.
  apply orb_false_iff in H. destruct H as [H _]. lia.
Qed.

Lemma insert_by_value_sorted (r : eosusd.row) (l : list eosusd.row) :
  StronglySorted Z.le (values l) -> StronglySorted Z.le (values (insert_by_value r l)).
Proof.
  induction l as [|x l IH]; simpl; intros H; [repeat constructor|].
  inversion H as [|? ? Hl Hx]; subst.
  destruct (value_before r x) eqn:E; simpl.
  - constructor; [exact H|]. apply value_before_le in E.
    constructor; [exact E|]. eapply Forall_impl; [|exact Hx]. simpl. intros; lia.
  - constructor; [apply IH; exact Hl|]. apply value_before_ge in E.
    apply Permutation_Forall with (eosusd.value r :: values l).
    + apply Permutation_sym. unfold values. change (eosusd.value r :: map eosusd.value l)
        with (map eosusd.value (r :: l)). apply Permutation_map, insert_by_value_perm.
    + constructor; assumption.
Qed.

Lemma value_index_sorted (t : list eosusd.row) :
  StronglySorted Z.le (values (value_index t)).
Proof.
  induction t as [|x t IH]; simpl; [constructor|].
  apply insert_by_value_sorted. exact IH.
Qed.

Lemma insert_value_perm (v : Z) (l : list Z) : Permutation (insert_value v l) (v :: l).
Proof.
  induction l as [|x l IH]; simpl; [apply Permutation_refl|].
  destruct (v <=? x); [apply Permutation_refl|].
  apply Permutation_trans with (x :: v :: l); [constructor; exact IH|constructor].
Qed.

Lemma insert_value_sorted (v : Z) (l : list Z) :
  StronglySorted Z.le l -> StronglySorted Z.le (insert_value v l).
Proof.
  induction l as [|x l IH]; simpl; intros H; [repeat constructor|].
  inversion H as [|? ? Hl Hx]; subst.
  destruct (Z.leb_spec v x).
  - constructor; [exact H|].
    constructor; [assumption|]. eapply Forall_impl; [|exact Hx]. simpl. intros; lia.
  - constructor; [apply IH; exact Hl|].
    apply Permutation_Forall with (v :: l);
      [apply Permutation_sym, insert_value_perm|constructor; [lia|assumption]].
Qed.

Lemma ranked_perm (t : list eosusd.row) : Permutation (ranked t) (values t).
Proof.
  unfold ranked. induction (values t) as [|x l IH]; simpl; [constructor|].
  apply Permutation_trans with (x :: fold_right insert_value [] l);
    [apply insert_value_perm|constructor; exact IH].
Qed.

Lemma ranked_sorted (t : list eosusd.row) : StronglySorted Z.le (ranked t).
Proof.
  unfold ranked. induction (values t) as [|x l IH]; simpl; [constructor|].
  apply insert_value_sorted. exact IH.
Qed.

(** There is one way only to put given values in ascending order. *)
Lemma sorted_unique (l1 l2 : list Z) :
  StronglySorted Z.le l1 -> StronglySorted Z.le l2 -> Permutation l1 l2 -> l1 = l2.
Proof.
  intros H1. revert l2. induction H1 as [|a l1 Hs IH Ha]; intros l2 H2 P.
  - apply Permutation_nil in P. congruence.
  - destruct H2 as [|b l2 Hs2 Hb].
    + apply Permutation_sym, Permutation_nil in P. discriminate.
    + assert (a = b).
      { assert (Ia : In a (b :: l2)) by (eapply Permutation_in; [exact P|left; reflexivity]).
        assert (Ib : In b (a :: l1))
          by (eapply Permutation_in; [apply Permutation_sym; exact P|left; reflexivity]).
        rewrite Forall_forall in Ha, Hb.
        destruct Ia as [|Ia]; [congruence|]. destruct Ib as [|Ib]; [congruence|].
        specialize (Ha _ Ib). specialize (Hb _ Ia). lia. }
      subst b. f_equal. apply IH; [exact Hs2|].
      eapply Permutation_cons_inv. exact P.
Qed.

Lemma ranked_of_perm (t : list eosusd.row) (vs : list Z) :
  StronglySorted Z.le vs -> Permutation vs (values t) -> vs = ranked t.
Proof.
  intros Hs P. apply sorted_unique; [exact Hs|apply ranked_sorted|].
  apply Permutation_trans with (values t); [exact P|apply Permutation_sym, ranked_perm].
Qed.

Lemma values_value_index (t : list eosusd.row) : values (value_index t) = ranked t.
Proof.
  apply ranked_of_perm; [apply value_index_sorted|].
  apply Permutation_map, value_index_perm.
Qed.

Lemma ranked_perm_eq (t t' : list eosusd.row) :
  Permutation (values t) (values t') -> ranked t = ranked t'.
Proof.
  intros P. apply ranked_of_perm; [apply ranked_sorted|].
  apply Permutation_trans with (values t); [apply ranked_perm|exact P].
Qed.

(** ** The summing loop *)

Lemma wrap64_idem (z : Z) : wrap64 (wrap64 z) = wrap64 z.
Proof. unfold wrap64. apply Z.mod_mod. unfold uint64_modulus. lia. Qed.

Lemma wrap64_small (z : Z) : 0 <= z < uint64_modulus -> wrap64 z = z.
Proof. intros H. unfold wrap64. apply Z.mod_small. exact H. Qed.

Lemma wrap64_range (z : Z) : 0 <= wrap64 z < uint64_modulus.
Proof. unfold wrap64. apply Z.mod_pos_bound. unfold uint64_modulus. lia. Qed.

Lemma wrap64_add_l (a b : Z) : wrap64 (wrap64 a + b) = wrap64 (a + b).
Proof. unfold wrap64. apply Zplus_mod_idemp_l. Qed.

Lemma next_values_sum (n : nat) (itr : value_itr) (avg : Z) (db : database) :
  (n < length itr)%nat ->
  next_values n itr (wrap64 avg) db =
  Done (wrap64 (avg + sum (values (firstn n (tl itr))))) db.
Proof.
  revert itr avg. induction n as [|n IH]; intros itr avg Hlen.
  - simpl. unfold ret. rewrite Z.add_0_r. reflexivity.
  - destruct itr as [|x itr]; [simpl in Hlen; lia|].
    destruct itr as [|y itr]; [simpl in Hlen; lia|].
    simpl in Hlen.
    change (next_values (S n) (x :: y :: itr) (wrap64 avg) db)
      with (next_values n (y :: itr) (wrap64 (wrap64 avg + eosusd.value y)) db).
    rewrite wrap64_add_l, IH by (simpl; lia).
    f_equal. f_equal. simpl tl. destruct itr as [|z itr].
    + destruct n; simpl; lia.
    + simpl. lia.
Qed.

(** ** [update_eosusd_oracle] *)

Lemma well_keyed_inv (t : list eosusd.row) :
  well_keyed t = true ->
  ascending t = true /\ Forall (fun r => 0 <= eosusd.id r < uint64_modulus) t.
Proof.
  unfold well_keyed. intros H. apply andb_true_iff in H. destruct H as [Ha Hr].
  split; [exact Ha|]. apply Forall_forall. intros r Hin.
  rewrite forallb_forall in Hr. specialize (Hr r Hin).
  unfold is_uint64 in Hr. apply andb_true_iff in Hr.
  change (primary_key r) with (eosusd.id r) in Hr. lia.
Qed.

Lemma well_keyed_intro (t : list eosusd.row) :
  ascending t = true -> Forall (fun r => 0 <= eosusd.id r < uint64_modulus) t ->
  well_keyed t = true.
Proof.
  intros Ha Hr. unfold well_keyed. rewrite Ha. simpl.
  apply forallb_forall. intros r Hin. rewrite Forall_forall in Hr.
  specialize (Hr r Hin). unfold is_uint64.
  change (primary_key r) with (eosusd.id r). apply andb_true_iff. lia.
Qed.

(** The window is empty: the first datapoint gets the largest key. *)
Lemma update_empty (h : host) (owner : account_name) (value : Z) (db : database) :
  usdtable db = [] ->
  update_eosusd_oracle h owner value db =
  Done tt (with_usdtable
             [{| eosusd.id := uint64_max; eosusd.owner := owner;
                 eosusd.value := value; eosusd.average := value;
                 eosusd.timestamp := current_time h |}] db).
Proof.
  intros E. unfold update_eosusd_oracle. rewrite E. simpl.
  unfold bind, usdstore_emplace, ret. rewrite E. reflexivity.
Qed.

(** The window is neither empty nor full and its newest key is not 0:
    the datapoint goes in front, its key one below the newest. *)
Lemma update_partial (h : host) (owner : account_name) (value : Z) (db : database)
  (newest : eosusd.row) (rest : list eosusd.row) :
  usdtable db = newest :: rest ->
  (length rest < 20)%nat ->
  0 < eosusd.id newest < uint64_modulus ->
  update_eosusd_oracle h owner value db =
  Done tt (with_usdtable
             ({| eosusd.id := eosusd.id newest - 1; eosusd.owner := owner;
                 eosusd.value := value; eosusd.average := value;
                 eosusd.timestamp := current_time h |} :: newest :: rest) db).
Proof.
  intros E Hlen Hid. unfold update_eosusd_oracle. rewrite E.
  change (0 <? Z.of_nat (length (newest :: rest))) with true. cbv iota.
  unfold bind at 1. unfold begin, deref. simpl hd_error. cbv iota beta.
  replace (datapoints_count <? Z.of_nat (length (newest :: rest)) + 1) with false
    by (symmetry; apply Z.ltb_ge; unfold datapoints_count; simpl length; lia).
  rewrite wrap64_small by lia.
  unfold bind, usdstore_emplace, ret. rewrite E.
  rewrite emplace_front by (unfold primary_key, eosusd_key; simpl; lia). reflexivity.
Qed.

(** The window is full: the oldest datapoint leaves, the new one enters
    with the trimmed average of the window it completes. *)
Lemma update_full (h : host) (owner : account_name) (value : Z) (db : database) :
  well_keyed (usdtable db) = true ->
  length (usdtable db) = 21%nat ->
  exists newest oldest t',
    begin (usdtable db) = Some newest /\
    usdtable db = removelast (usdtable db) ++ [oldest] /\
    Forall (fun x => key_lt x oldest) (removelast (usdtable db)) /\
    emplace {| eosusd.id := wrap64 (eosusd.id newest - 1);
               eosusd.owner := owner;
               eosusd.value := value;
               eosusd.average := trimmed_average t';
               eosusd.timestamp := current_time h |}
            (removelast (usdtable db)) = Some t' /\
    update_eosusd_oracle h owner value db = Done tt (with_usdtable t' db).
Proof.
  intros Hwk Hlen.
  destruct (well_keyed_inv _ Hwk) as [Hasc Hrange].
  destruct (usdtable db) as [|newest t1] eqn:E; [discriminate|].
  destruct (back_nonempty newest t1) as [oldest Hback].
  pose proof (back_split _ _ Hback) as Hsplit.
  set (rest := removelast (newest :: t1)) in *.
  assert (Hrest : ascending rest = true /\ Forall (fun x => key_lt x oldest) rest)
    by (apply ascending_snoc; rewrite <- Hsplit; exact Hasc).
  destruct Hrest as [Hrasc Hrlt].
  assert (Hrlen : length rest = 20%nat).
  { apply (f_equal (@length _)) in Hsplit. rewrite length_app in Hsplit.
    simpl in Hsplit, Hlen. lia. }
  assert (Hrr : Forall (fun r => 0 <= eosusd.id r < uint64_modulus) (rest ++ [oldest]))
    by (rewrite <- Hsplit; exact Hrange).
  apply Forall_app in Hrr. destruct Hrr as [Hrr Hor].
  inversion Hor as [|? ? Hoid _]; subst.
  assert (Hhead : exists r1, rest = newest :: r1).
  { destruct rest as [|x r1]; [discriminate|]. simpl in Hsplit.
    injection Hsplit as -> _. eexists; reflexivity. }
  destruct Hhead as [r1 Hr1].
  set (k := wrap64 (eosusd.id newest - 1)).
  assert (Hfresh : Forall (fun x : eosusd.row => primary_key x <> k) rest).
  { inversion Hrange as [|? ? Hnid _]; subst.
    destruct (Z.eq_dec (eosusd.id newest) 0) as [Hz|Hnz].
    - assert (k = uint64_modulus - 1).
      { unfold k. rewrite Hz. reflexivity. }
      eapply Forall_impl; [|exact Hrlt]. unfold key_lt. simpl.
      change (primary_key oldest) with (eosusd.id oldest). intros; lia.
    - assert (k = eosusd.id newest - 1) by (unfold k; apply wrap64_small; lia).
      rewrite Hr1. constructor; [change (primary_key newest) with (eosusd.id newest); lia|].
      rewrite Hr1 in Hrasc. pose proof (ascending_head _ _ Hrasc) as Hh.
      eapply Forall_impl; [|exact Hh]. unfold key_lt. simpl.
      change (primary_key newest) with (eosusd.id newest). intros; lia. }
  set (new0 := {| eosusd.id := k; eosusd.owner := owner; eosusd.value := value;
                  eosusd.average := uninitialized h;
                  eosusd.timestamp := current_time h |}).
  destruct (emplace_fresh new0 rest Hfresh) as [t0 [Et0 Pt0]].
  set (a := trimmed_average t0).
  pose proof (modify_emplace (eosusd.set_average a) new0 rest t0 eq_refl Et0) as Em.
  set (t' := modify (primary_key new0) (eosusd.set_average a) t0) in *.
  assert (Pt' : Permutation t' (eosusd.set_average a new0 :: rest)).
  { destruct (emplace_fresh (eosusd.set_average a new0) rest Hfresh) as [u [Eu Pu]].
    rewrite Em in Eu. injection Eu as <-. exact Pu. }
  assert (Hranked : ranked t0 = ranked t').
  { apply ranked_perm_eq. unfold values.
    apply Permutation_trans with (map eosusd.value (new0 :: rest));
      [apply Permutation_map; exact Pt0|].
    apply Permutation_sym. apply (Permutation_map eosusd.value) in Pt'. exact Pt'. }
  exists newest, oldest, t'.
  split; [reflexivity|]. split; [exact Hsplit|]. split; [exact Hrlt|].
  assert (Ha : a = trimmed_average t') by (unfold a, trimmed_average; rewrite Hranked; reflexivity).
  split; [rewrite <- Ha; exact Em|].
  unfold update_eosusd_oracle. rewrite E.
  replace (0 <? Z.of_nat (length (newest :: t1))) with true
    by (symmetry; apply Z.ltb_lt; rewrite Hlen; lia).
  unfold bind at 1. unfold begin, deref. simpl hd_error. cbv iota beta.
  replace (datapoints_count <? Z.of_nat (length (newest :: t1)) + 1) with true
    by (symmetry; apply Z.ltb_lt; rewrite Hlen; unfold datapoints_count; lia).
  fold rest. rewrite Hback.
  unfold bind at 1. cbv iota beta.
  unfold bind at 1. unfold usdstore_erase at 1. cbv iota beta.
  rewrite E. rewrite Hsplit at 1. rewrite erase_snoc
    by (eapply Forall_impl; [|exact Hrlt]; unfold key_lt; simpl; intros; lia).
  unfold bind at 1. unfold usdstore_emplace. simpl usdtable.
  fold k. fold new0. rewrite Et0. cbv iota beta. simpl usdtable.
  assert (Hidx : length (value_index t0) = 21%nat).
  { rewrite (Permutation_length (value_index_perm t0)), (Permutation_length Pt0).
    simpl. lia. }
  pose proof (values_value_index t0) as Hv.
  destruct (value_index t0) as [|x1 [|x2 [|x3 [|x4 [|x5 idx]]]]] eqn:Eidx;
    try discriminate.
  unfold bind at 1. unfold ret at 1. cbv iota beta.
  unfold bind, incr. cbv iota beta.
  change 0 with (wrap64 0) at 1.
  rewrite next_values_sum by (simpl in Hidx; lia).
  unfold usdstore_modify. simpl usdtable.
  assert (Hsum : wrap64 (0 + sum (values (firstn 9 (tl idx)))) / 9 = a).
  { unfold a, trimmed_average. rewrite <- Hv.
    destruct idx as [|x6 idx]; [simpl in Hidx; lia|].
    unfold values. simpl skipn. simpl tl.
    rewrite Z.add_0_l, firstn_map. reflexivity. }
  rewrite Hsum. unfold with_usdtable. simpl. reflexivity.
Qed.

(** ** Sequencing *)

Lemma bind_done {A B : Type} (c : action A) (k : A -> action B) (db db' : database) (b : B) :
  bind c k db = Done b db' ->
  exists a db1, c db = Done a db1 /\ k a db1 = Done b db'.
Proof.
  unfold bind. destruct (c db) as [a db1|m db1]; [|discriminate].
  intros H. exists a, db1. split; [reflexivity|exact H].
Qed.

Lemma bind_abort {A B : Type} (c : action A) (k : A -> action B) (db db' : database)
  (m : string) :
  bind c k db = Abort m db' ->
  c db = Abort m db' \/ exists a db1, c db = Done a db1 /\ k a db1 = Abort m db'.
Proof.
  unfold bind. destruct (c db) as [a db1|m1 db1].
  - intros H. right. exists a, db1. split; [reflexivity|exact H].
  - intros H. injection H as -> ->. left. reflexivity.
Qed.

Lemma eosio_assert_done (test : bool) (msg : string) (db db' : database) (u : unit) :
  eosio_assert test msg db = Done u db' -> test = true /\ db' = db.
Proof.
  unfold eosio_assert. destruct test; [|discriminate].
  intros [= _ <-]. split; reflexivity.
Qed.

Lemma eosio_assert_abort (test : bool) (msg m : string) (db db' : database) :
  eosio_assert test msg db = Abort m db' -> test = false /\ m = msg /\ db' = db.
Proof.
  unfold eosio_assert. destruct test; [discriminate|].
  intros [= <- <-]. repeat split; reflexivity.
Qed.

Lemma host_message_not_too_early (m : string) : host_message m -> m <> too_early.
Proof.
  intros [H|[H|H]]; subst m; discriminate.
Qed.

Lemma deref_abort {R : Type} (itr : option R) (db db' : database) (m : string) :
  deref itr db = Abort m db' -> host_message m.
Proof.
  unfold deref. destruct itr; [discriminate|].
  intros [= <- _]. left. reflexivity.
Qed.

Lemma incr_abort (itr : value_itr) (db db' : database) (m : string) :
  incr itr db = Abort m db' -> host_message m.
Proof.
  unfold incr. destruct itr; [|discriminate].
  intros [= <- _]. right. right. reflexivity.
Qed.

Lemma usdstore_emplace_abort (r : eosusd.row) (db db' : database) (m : string) :
  usdstore_emplace r db = Abort m db' -> host_message m.
Proof.
  unfold usdstore_emplace. destruct (emplace r (usdtable db)); [discriminate|].
  intros [= <- _]. right. left. reflexivity.
Qed.

Lemma next_values_abort (n : nat) (itr : value_itr) (avg : Z) (db db' : database)
  (m : string) :
  next_values n itr avg db = Abort m db' -> host_message m.
Proof.
  revert itr avg db. induction n as [|n IH]; intros itr avg db H; [discriminate|].
  simpl in H. apply bind_abort in H.
  destruct H as [H|[itr' [db1 [_ H]]]]; [eapply incr_abort; exact H|].
  apply bind_abort in H.
  destruct H as [H|[r [db2 [_ H]]]]; [eapply deref_abort; exact H|].
  eapply IH. exact H.
Qed.

Ltac abort_step H :=
  apply bind_abort in H;
  let a := fresh "a" in
  let db1 := fresh "db" in
  destruct H as [H|[a [db1 [_ H]]]];
  [solve [ eapply deref_abort; exact H
         | eapply incr_abort; exact H
         | eapply usdstore_emplace_abort; exact H
         | eapply next_values_abort; exact H
         | discriminate H ]|].

(** [update_eosusd_oracle] has no assertion of its own: when it stops,
    the host has stopped it. *)
Lemma update_abort (h : host) (owner : account_name) (value : Z) (db db' : database)
  (m : string) :
  update_eosusd_oracle h owner value db = Abort m db' -> host_message m.
Proof.
  unfold update_eosusd_oracle. intros H.
  destruct (0 <? Z.of_nat (length (usdtable db))).
  - abort_step H.
    destruct (datapoints_count <? Z.of_nat (length (usdtable db)) + 1).
    + do 3 abort_step H.
      unfold ret at 1 in H.
      do 7 abort_step H.
      discriminate H.
    + abort_step H. discriminate H.
  - abort_step H. discriminate H.
Qed.

(** ** [check_oracle] *)

Lemma approved_iff (owner : account_name) (t : list oracles.row) :
  approved owner t = true <-> In owner (map oracles.owner t).
Proof.
  induction t as [|r t IH]; simpl; [split; [discriminate|tauto]|].
  destruct (Z.eqb_spec (oracles.owner r) owner).
  - split; [left; assumption|reflexivity].
  - rewrite IH. split; [right; assumption|intros [H|H]; [contradiction|exact H]].
Qed.

Lemma producers_loop_iff (owner : account_name) (producers : list account_name)
  (i n : nat) :
  producers_loop owner producers i n = true <->
  exists j, (i <= j < i + n)%nat /\ nth j producers 0 = owner.
Proof.
  revert i. induction n as [|n IH]; intros i; simpl.
  - split; [discriminate|]. intros [j [Hj _]]. lia.
  - destruct (Z.eqb_spec (nth i producers 0) owner) as [e|ne].
    + split; [|reflexivity]. intros _. exists i. split; [lia|exact e].
    + rewrite IH. split; intros [j [Hj Hn]]; exists j; (split; [|exact Hn]).
      * lia.
      * destruct (Nat.eq_dec j i); [subst j; contradiction|lia].
Qed.

(** The array after the host has filled it: the first 21 active
    producers, then zeroes up to 21 entries. *)
Lemma producers_array (h : host) :
  get_active_producers h (repeat 0 21) =
  firstn 21 (active_producers h)
  ++ repeat 0 (21 - length (firstn 21 (active_producers h))).
Proof.
  unfold get_active_producers. rewrite repeat_length. f_equal.
  set (n := length (firstn 21 (active_producers h))).
  assert (Hn : (n <= 21)%nat) by apply firstn_le_length.
  clearbody n. revert Hn.
  do 22 (destruct n as [|n]; [reflexivity|]). intros; lia.
Qed.

Lemma check_oracle_pure (h : host) (owner : account_name) (db : database) :
  exists b, check_oracle h owner db = Done b db.
Proof.
  unfold check_oracle. destruct (approved owner (oraclestable db)); eexists; reflexivity.
Qed.

Lemma producers_loop_nonzero (h : host) (owner : account_name) :
  owner <> 0 ->
  producers_loop owner (get_active_producers h (repeat 0 21)) 0 21 = true <->
  In owner (firstn 21 (active_producers h)).
Proof.
  intros Hnz. rewrite producers_loop_iff, producers_array.
  set (act := firstn 21 (active_producers h)).
  assert (Hlen : (length act <= 21)%nat) by apply firstn_le_length.
  split.
  - intros [j [Hj Hn]]. unfold account_name in *.
    destruct (Nat.lt_ge_cases j (length act)) as [Hlt|Hge].
    + rewrite app_nth1 in Hn by exact Hlt. rewrite <- Hn. apply nth_In. exact Hlt.
    + rewrite app_nth2 in Hn by exact Hge. rewrite nth_repeat in Hn. congruence.
  - intros Hin. destruct (In_nth _ _ 0 Hin) as [j [Hj Hn]].
    unfold account_name in *. exists j. split; [lia|].
    rewrite app_nth1 by exact Hj. exact Hn.
Qed.

(** ** More on the primary index *)

Lemma emplace_perm {R : Type} {key : Keyed R} (r : R) (t t' : list R) :
  emplace r t = Some t' -> Permutation t' (r :: t).
Proof.
  revert t'. induction t as [|x t IH]; intros t' E.
  - injection E as <-. apply Permutation_refl.
  - simpl in E. destruct (primary_key r <? primary_key x).
    + injection E as <-. apply Permutation_refl.
    + destruct (primary_key r =? primary_key x); [discriminate|].
      destruct (emplace r t) as [u|]; [|discriminate].
      injection E as <-.
      apply Permutation_trans with (x :: r :: t); [constructor; apply IH; reflexivity|constructor].
Qed.

Lemma find_key {R : Type} {key : Keyed R} (k : Z) (t : list R) (r : R) :
  find k t = Some r -> primary_key r = k.
Proof.
  induction t as [|x t IH]; simpl; [discriminate|].
  destruct (Z.eqb_spec (primary_key x) k); [intros [= <-]; assumption|exact IH].
Qed.

Lemma find_in {R : Type} {key : Keyed R} (k : Z) (t : list R) (r : R) :
  find k t = Some r -> In r t.
Proof.
  induction t as [|x t IH]; simpl; [discriminate|].
  destruct (primary_key x =? k); [intros [= <-]; left; reflexivity|].
  intros H. right. apply IH. exact H.
Qed.

(** ** [check_last_push] *)

Lemma check_last_push_first (h : host) (owner : account_name) (db : database) :
  find owner (statstable db) = None ->
  exists t',
    emplace {| eosusdstats.owner := owner;
               eosusdstats.timestamp := current_time h;
               eosusdstats.count := 0 |} (statstable db) = Some t' /\
    check_last_push h owner db = Done tt (with_statstable t' db).
Proof.
  intros Hnone. unfold check_last_push. rewrite Hnone.
  apply find_none_fresh in Hnone.
  destruct (emplace_fresh
              {| eosusdstats.owner := owner;
                 eosusdstats.timestamp := current_time h;
                 eosusdstats.count := 0 |} (statstable db) Hnone) as [t' [E _]].
  exists t'. split; [exact E|].
  unfold bind, store_emplace, ret. rewrite E. reflexivity.
Qed.

Lemma check_last_push_again (h : host) (owner : account_name) (db : database)
  (last : eosusdstats.row) :
  find owner (statstable db) = Some last ->
  check_last_push h owner db =
  if wrap64 (eosusdstats.timestamp last + one_minute) <=? current_time h
  then Done tt (with_statstable
                  (modify owner
                     (fun s => {| eosusdstats.owner := eosusdstats.owner s;
                                  eosusdstats.timestamp := current_time h;
                                  eosusdstats.count := wrap64 (eosusdstats.count s + 1) |})
                     (statstable db)) db)
  else Abort too_early db.
Proof.
  intros Hlast. unfold check_last_push. rewrite Hlast.
  unfold bind, deref, eosio_assert, store_modify.
  destruct (wrap64 (eosusdstats.timestamp last + one_minute) <=? current_time h);
    reflexivity.
Qed.

Lemma check_last_push_frame (h : host) (owner : account_name) (db db' : database) :
  check_last_push h owner db = Done tt db' ->
  usdtable db' = usdtable db /\ oraclestable db' = oraclestable db.
Proof.
  destruct (find owner (statstable db)) as [last|] eqn:E.
  - rewrite (check_last_push_again h owner db last E).
    destruct (_ <=? _); [|discriminate]. intros [= <-]. split; reflexivity.
  - destruct (check_last_push_first h owner db E) as [t' [_ Hc]].
    rewrite Hc. intros [= <-]. split; reflexivity.
Qed.

Lemma check_last_push_abort (h : host) (owner : account_name) (db db' : database)
  (m : string) :
  check_last_push h owner db = Abort m db' ->
  m = too_early /\ db' = db /\ exists last, find owner (statstable db) = Some last.
Proof.
  destruct (find owner (statstable db)) as [last|] eqn:E.
  - rewrite (check_last_push_again h owner db last E).
    destruct (_ <=? _); [discriminate|]. intros [= <- <-].
    repeat split. exists last. reflexivity.
  - destruct (check_last_push_first h owner db E) as [t' [_ Hc]].
    rewrite Hc. discriminate.
Qed.

(** ** [write] *)

Lemma write_done (h : host) (owner : account_name) (value : Z) (db db' : database) :
  write h owner value db = Done tt db' ->
  has_auth h owner = true /\
  val_min <= value <= val_max /\
  check_oracle h owner db = Done true db /\
  exists db1, check_last_push h owner db = Done tt db1 /\
              update_eosusd_oracle h owner value db1 = Done tt db'.
Proof.
  unfold write, require_auth. intros H.
  apply bind_done in H. destruct H as [[] [d1 [H1 H]]].
  apply eosio_assert_done in H1. destruct H1 as [Hauth ->].
  apply bind_done in H. destruct H as [[] [d2 [H2 H]]].
  apply eosio_assert_done in H2. destruct H2 as [Hrange ->].
  apply bind_done in H. destruct H as [q [d3 [H3 H]]].
  destruct (check_oracle_pure h owner db) as [b Hb].
  rewrite Hb in H3. injection H3 as -> ->.
  apply bind_done in H. destruct H as [[] [d4 [H4 H]]].
  apply eosio_assert_done in H4. destruct H4 as [-> ->].
  apply bind_done in H. destruct H as [[] [d5 [H5 H]]].
  split; [exact Hauth|]. split; [apply andb_true_iff in Hrange; lia|].
  split; [exact Hb|]. exists d5. split; assumption.
Qed.

Lemma write_steps (h : host) (owner : account_name) (value : Z) (db : database) :
  has_auth h owner = true ->
  val_min <= value <= val_max ->
  check_oracle h owner db = Done true db ->
  write h owner value db =
  (check_last_push h owner ;; update_eosusd_oracle h owner value) db.
Proof.
  intros Hauth Hrange Hq. unfold write, require_auth.
  unfold bind at 1. unfold eosio_assert at 1. rewrite Hauth.
  unfold bind at 1. unfold eosio_assert at 1.
  replace ((val_min <=? value) && (value <=? val_max)) with true
    by (symmetry; apply andb_true_iff; lia).
  unfold bind at 1. rewrite Hq.
  unfold bind at 1. unfold eosio_assert at 1. reflexivity.
Qed.

(** ** The window along a history *)

Lemma update_keeps_inv (h : host) (owner : account_name) (value : Z) (db : database) :
  window_inv (usdtable db) ->
  exists db', update_eosusd_oracle h owner value db = Done tt db' /\
              window_inv (usdtable db') /\
              statstable db' = statstable db /\
              oraclestable db' = oraclestable db.
Proof.
  intros [Hwk [Hlen Hnew]].
  destruct (usdtable db) as [|newest rest] eqn:E.
  - eexists. split; [apply update_empty; exact E|].
    split; [|split; reflexivity].
    split; [reflexivity|]. split; [simpl; lia|].
    simpl. intros _ r [= <-]. reflexivity.
  - destruct (Nat.eq_dec (length (newest :: rest)) 21) as [Hfull|Hpart].
    + assert (Hwk' : well_keyed (usdtable db) = true) by (rewrite E; exact Hwk).
      assert (Hlen' : length (usdtable db) = 21%nat) by (rewrite E; exact Hfull).
      destruct (update_full h owner value db Hwk' Hlen')
        as [nw [oldest [t' [_ [Hsplit [Hlt [Hem Hup]]]]]]].
      exists (with_usdtable t' db). split; [exact Hup|].
      split; [|split; reflexivity].
      destruct (well_keyed_inv _ Hwk') as [Hasc Hrange].
      rewrite Hsplit in Hasc, Hrange.
      apply ascending_snoc in Hasc. destruct Hasc as [Hasc _].
      apply Forall_app in Hrange. destruct Hrange as [Hrange _].
      pose proof (emplace_perm _ _ _ Hem) as P.
      assert (L : length t' = 21%nat).
      { rewrite (Permutation_length P). simpl.
        apply (f_equal (@length _)) in Hsplit. rewrite length_app in Hsplit.
        simpl in Hsplit. lia. }
      simpl usdtable. split; [|split; [lia|intros; lia]].
      apply well_keyed_intro; [eapply emplace_ascending; [exact Hasc|exact Hem]|].
      eapply Permutation_Forall; [apply Permutation_sym; exact P|].
      constructor; [simpl; apply wrap64_range|exact Hrange].
    + assert (Hl : (length (newest :: rest) < 21)%nat) by lia.
      specialize (Hnew Hl newest eq_refl).
      destruct (well_keyed_inv _ Hwk) as [Hasc Hrange].
      assert (Hid : 0 < eosusd.id newest < uint64_modulus).
      { rewrite Hnew. simpl length in *. unfold uint64_modulus. lia. }
      eexists. split; [apply (update_partial h owner value db newest rest E); [simpl in Hl; lia|exact Hid]|].
      split; [|split; reflexivity].
      simpl usdtable. split; [|split].
      * apply well_keyed_intro.
        -- change (ascending (?r :: newest :: rest))
             with ((primary_key r <? primary_key newest) && ascending (newest :: rest)).
           rewrite Hasc. apply andb_true_iff. split; [|reflexivity].
           apply Z.ltb_lt. unfold primary_key, eosusd_key. simpl. lia.
        -- constructor; [simpl; lia|exact Hrange].
      * simpl length in *. lia.
      * intros _ r [= <-]. simpl eosusd.id. rewrite Hnew. simpl length. lia.
Qed.

Lemma emplace_oracles_frame (l : list account_name) (db db' : database) :
  emplace_oracles l db = Done tt db' ->
  usdtable db' = usdtable db /\ statstable db' = statstable db.
Proof.
  revert db. induction l as [|a l IH]; intros db H.
  - injection H as <-. split; reflexivity.
  - simpl in H. apply bind_done in H. destruct H as [k [db1 [H1 H]]].
    unfold oracles_emplace in H1.
    destruct (emplace _ (oraclestable db)); [|discriminate].
    injection H1 as _ <-. apply IH in H. exact H.
Qed.

Lemma setoracles_frame (h : host) (l : list account_name) (db db' : database) :
  setoracles h l db = Done tt db' ->
  usdtable db' = usdtable db /\ statstable db' = statstable db.
Proof.
  unfold setoracles, require_auth. intros H.
  apply bind_done in H. destruct H as [[] [d1 [H1 H]]].
  apply eosio_assert_done in H1. destruct H1 as [_ ->].
  apply bind_done in H. destruct H as [[] [d2 [H2 H]]].
  injection H2 as <-. apply emplace_oracles_frame in H. exact H.
Qed.

Lemma clear_done (h : host) (db : database) :
  has_auth h titan_account = true -> clear h db = Done tt empty_database.
Proof.
  intros Hauth. unfold clear, require_auth, bind, eosio_assert. rewrite Hauth.
  unfold with_statstable, with_usdtable, with_oraclestable. simpl.
  rewrite !erase_all_empty. reflexivity.
Qed.

Lemma clear_abort (h : host) (db : database) :
  has_auth h titan_account = false ->
  clear h db = Abort "missing required authority" db.
Proof.
  intros Hauth. unfold clear, require_auth, bind, eosio_assert. rewrite Hauth.
  reflexivity.
Qed.

Lemma empty_window_inv : window_inv [].
Proof.
  split; [reflexivity|]. split; [simpl; lia|]. intros _ r H. discriminate H.
Qed.

Lemma run_call_keeps_inv (h : host) (c : call) (db : database) :
  window_inv (usdtable db) ->
  window_inv (usdtable (commit db (run_call h c db))).
Proof.
  intros Hinv. destruct (run_call h c db) as [[] db'|m db'] eqn:E; [|exact Hinv].
  simpl. destruct c as [owner value|l|]; simpl in E.
  - apply write_done in E. destruct E as [_ [_ [_ [db1 [Hc Hu]]]]].
    apply check_last_push_frame in Hc. destruct Hc as [Hw _].
    rewrite <- Hw in Hinv.
    destruct (update_keeps_inv h owner value db1 Hinv) as [db2 [Hu2 [Hi _]]].
    rewrite Hu in Hu2. injection Hu2 as ->. exact Hi.
  - apply setoracles_frame in E. destruct E as [-> _]. exact Hinv.
  - destruct (has_auth h titan_account) eqn:Ha.
    + rewrite (clear_done h db Ha) in E. injection E as <-. apply empty_window_inv.
    + rewrite (clear_abort h db Ha) in E. discriminate E.
Qed.

Lemma replay_keeps_inv (history : list (host * call)) (db : database) :
  window_inv (usdtable db) -> window_inv (usdtable (replay history db)).
Proof.
  revert db. induction history as [|[h c] history IH]; intros db Hinv; [exact Hinv|].
  simpl. apply IH. apply run_call_keeps_inv. exact Hinv.
Qed.

(** ** Sums within the range of values *)

Lemma sum_bounds (l : list Z) (M : Z) :
  Forall (fun x => 0 <= x <= M) l -> 0 <= sum l <= M * Z.of_nat (length l).
Proof.
  induction 1 as [|x l Hx Hl IH]; simpl sum; simpl length; [lia|].
  rewrite Nat2Z.inj_succ. lia.
Qed.

Lemma firstn_skipn_Forall {A : Type} (P : A -> Prop) (n m : nat) (l : list A) :
  Forall P l -> Forall P (firstn n (skipn m l)).
Proof.
  intros H. assert (Hs : Forall P (skipn m l)).
  { revert l H. induction m as [|m IH]; intros l H; [exact H|].
    destruct H as [|x l Hx Hl]; [constructor|]. simpl. apply IH. exact Hl. }
  revert Hs. generalize (skipn m l). clear. intros l H. revert n.
  induction H as [|x l Hx Hl IH]; intros [|n]; simpl; constructor;
    [exact Hx|apply IH].
Qed.

(** ** Keys *)

Lemma update_new_row (h : host) (owner : account_name) (value : Z) (db db' : database)
  (newest : eosusd.row) :
  well_keyed (usdtable db) = true ->
  (length (usdtable db) <= 21)%nat ->
  begin (usdtable db) = Some newest ->
  update_eosusd_oracle h owner value db = Done tt db' ->
  exists new,
    find (wrap64 (eosusd.id newest - 1)) (usdtable db') = Some new /\
    eosusd.id new = wrap64 (eosusd.id newest - 1) /\
    eosusd.owner new = owner /\
    eosusd.value new = value /\
    eosusd.timestamp new = current_time h.
Proof.
  intros Hwk Hlen Hb Hup.
  destruct (Nat.eq_dec (length (usdtable db)) 21) as [Hfull|Hpart].
  - destruct (update_full h owner value db Hwk Hfull)
      as [nw [oldest [t' [Hb' [_ [_ [Hem Hup']]]]]]].
    rewrite Hb in Hb'. injection Hb' as <-.
    rewrite Hup in Hup'. injection Hup' as ->.
    eexists. split; [apply (find_emplace _ _ _ Hem)|]. repeat split; reflexivity.
  - destruct (usdtable db) as [|x rest] eqn:E; [discriminate|].
    injection Hb as ->.
    unfold update_eosusd_oracle in Hup. rewrite E in Hup.
    change (0 <? Z.of_nat (length (newest :: rest))) with true in Hup. cbv iota in Hup.
    unfold bind at 1 in Hup. unfold begin, deref in Hup. simpl hd_error in Hup.
    cbv iota beta in Hup.
    replace (datapoints_count <? Z.of_nat (length (newest :: rest)) + 1) with false in Hup
      by (symmetry; apply Z.ltb_ge; unfold datapoints_count; lia).
    apply bind_done in Hup. destruct Hup as [k [db1 [H1 H2]]].
    injection H2 as <-. unfold usdstore_emplace in H1. rewrite E in H1.
    destruct (emplace _ (newest :: rest)) as [t1|] eqn:Em; [|discriminate].
    injection H1 as _ <-.
    eexists. split; [apply (find_emplace _ _ _ Em)|]. repeat split; reflexivity.
Qed.

Lemma numbered_app (k : Z) (l1 l2 : list (host * account_name * Z)) :
  numbered k (l1 ++ l2) = numbered k l1 ++ numbered (k + Z.of_nat (length l1)) l2.
Proof.
  revert k. induction l1 as [|[[h o] v] l1 IH]; intros k.
  - simpl. rewrite Z.add_0_r. reflexivity.
  - cbn [numbered app]. rewrite IH. do 3 f_equal. cbn [length]. lia.
Qed.

Lemma numbered_length (k : Z) (l : list (host * account_name * Z)) :
  length (numbered k l) = length l.
Proof.
  revert k. induction l as [|[[h o] v] l IH]; intros k; cbn [numbered length];
    [reflexivity|].
  rewrite IH. reflexivity.
Qed.

Lemma insert_all_app (l1 l2 : list (host * account_name * Z)) (db : database) :
  insert_all (l1 ++ l2) db = (insert_all l1 ;; insert_all l2) db.
Proof.
  revert db. induction l1 as [|[[h o] v] l1 IH]; intros db; [reflexivity|].
  change (((h, o, v) :: l1) ++ l2) with ((h, o, v) :: (l1 ++ l2)).
  change (insert_all ((h, o, v) :: l1 ++ l2))
    with (update_eosusd_oracle h o v ;; insert_all (l1 ++ l2)).
  change (insert_all ((h, o, v) :: l1))
    with (update_eosusd_oracle h o v ;; insert_all l1).
  unfold bind at 1 2 3.
  destruct (update_eosusd_oracle h o v db) as [[] db1|m db1]; [|reflexivity].
  rewrite IH. reflexivity.
Qed.

Lemma map_removelast {A B : Type} (f : A -> B) (l : list A) :
  map f (removelast l) = removelast (map f l).
Proof.
  induction l as [|x l IH]; [reflexivity|].
  destruct l as [|y l]; [reflexivity|].
  change (f x :: map f (removelast (y :: l)) = f x :: removelast (map f (y :: l))).
  rewrite IH. reflexivity.
Qed.

(** The window after a run of fewer than 2^64 + 1 datapoints. *)
Lemma insert_all_window (points : list (host * account_name * Z)) :
  Z.of_nat (length points) <= uint64_modulus ->
  exists db,
    insert_all points empty_database = Done tt db /\
    map label (usdtable db) = firstn 21 (rev (numbered 0 points)) /\
    window_inv (usdtable db) /\
    (forall newest, begin (usdtable db) = Some newest ->
                    eosusd.id newest = uint64_modulus - Z.of_nat (length points)).
Proof.
  induction points as [|[[h o] v] points IH] using rev_ind; intros Hn.
  - exists empty_database. split; [reflexivity|]. split; [reflexivity|].
    split; [apply empty_window_inv|]. intros r H. discriminate H.
  - rewrite length_app in Hn. simpl length in Hn.
    destruct IH as [db [Hrun [Hlab [Hinv Hhead]]]]; [lia|].
    destruct (update_keeps_inv h o v db Hinv) as [db' [Hup [Hinv' _]]].
    exists db'. split.
    { rewrite insert_all_app. unfold bind at 1. rewrite Hrun.
      change (insert_all [(h, o, v)])
        with (update_eosusd_oracle h o v ;; ret tt).
      unfold bind, ret. rewrite Hup. reflexivity. }
    rewrite numbered_app, rev_app_distr, length_app.
    cbn [numbered rev app length]. rewrite Z.add_0_l.
    set (L := rev (numbered 0 points)) in *.
    assert (HL : length L = length points)
      by (unfold L; rewrite length_rev; apply numbered_length).
    change (firstn 21 (?x :: L)) with (x :: firstn 20 L).
    destruct Hinv as [Hwk [Hlen Hcond]].
    destruct (usdtable db) as [|newest rest] eqn:E.
    + assert (points = []).
      { destruct points as [|p points]; [reflexivity|].
        apply (f_equal (@length _)) in Hlab. rewrite length_firstn, HL in Hlab.
        cbn [length map] in Hlab. lia. }
      subst points. rewrite (update_empty h o v db E) in Hup. injection Hup as <-.
      cbn [usdtable with_usdtable]. split; [cbn [map label eosusd.id eosusd.owner eosusd.value eosusd.timestamp length Z.of_nat]; rewrite Z.sub_0_r; reflexivity|].
      split; [exact Hinv'|].
      intros r [= <-]. cbn [eosusd.id length app]. unfold uint64_max, uint64_modulus. lia.
    + specialize (Hhead newest eq_refl).
      destruct (well_keyed_inv _ Hwk) as [Hasc Hrange].
      assert (Hid : 0 < eosusd.id newest < uint64_modulus).
      { inversion Hrange; subst. assert (0 < Z.of_nat (length points)); [|lia].
        apply (f_equal (@length _)) in Hlab. rewrite length_firstn, HL in Hlab.
        cbn [length map] in Hlab. lia. }
      assert (Hkey : eosusd.id newest - 1 = uint64_max - Z.of_nat (length points))
        by (rewrite Hhead; unfold uint64_max, uint64_modulus; lia).
      destruct (Nat.eq_dec (length (newest :: rest)) 21) as [Hfull|Hpart].
      * assert (Hwk' : well_keyed (usdtable db) = true) by (rewrite E; exact Hwk).
        assert (Hlen' : length (usdtable db) = 21%nat) by (rewrite E; exact Hfull).
        destruct (update_full h o v db Hwk' Hlen')
          as [nw [oldest [t' [Hb [Hsplit [Hlt [Hem Hup']]]]]]].
        rewrite E in Hb. injection Hb as <-.
        rewrite Hup in Hup'. injection Hup' as ->.
        rewrite wrap64_small in Hem by lia.
        rewrite E in Hem.
        assert (Hrest : exists r1, removelast (newest :: rest) = newest :: r1).
        { destruct rest as [|y rest]; [discriminate|]. eexists. reflexivity. }
        destruct Hrest as [r1 Hr1]. rewrite Hr1 in Hem.
        rewrite emplace_front in Hem by (unfold primary_key, eosusd_key; simpl; lia).
        injection Hem as Ht'. cbn [usdtable with_usdtable] in *.
        split.
        { pose proof (f_equal (map label) Ht') as Hm. rewrite <- Hm, <- Hr1.
          cbn [map]. unfold label at 1.
          cbn [eosusd.id eosusd.owner eosusd.value eosusd.timestamp].
          rewrite Hkey. f_equal.
          rewrite map_removelast, Hlab.
          apply removelast_firstn.
          apply (f_equal (@length _)) in Hlab. rewrite length_firstn in Hlab.
          rewrite length_map, Hfull in Hlab. lia. }
        split; [exact Hinv'|].
        intros r Hr. rewrite <- Ht' in Hr. injection Hr as <-.
        cbn [eosusd.id]. rewrite Nat2Z.inj_add. cbn [Z.of_nat Pos.of_succ_nat]. lia.
      * assert (Hl : (length rest < 20)%nat) by (cbn [length] in Hlen, Hpart; lia).
        rewrite (update_partial h o v db newest rest E Hl Hid) in Hup.
        injection Hup as <-. cbn [usdtable with_usdtable].
        split.
        { cbn [map]. unfold label at 1.
          cbn [eosusd.id eosusd.owner eosusd.value eosusd.timestamp].
          rewrite Hkey. f_equal.
          change (label newest :: map label rest) with (map label (newest :: rest)).
          rewrite Hlab.
          assert (length L < 21)%nat.
          { apply (f_equal (@length _)) in Hlab. rewrite length_firstn in Hlab.
            rewrite length_map in Hlab. cbn [length] in Hlab. lia. }
          rewrite !firstn_all2 by lia. reflexivity. }
        split; [exact Hinv'|].
        intros r [= <-]. cbn [eosusd.id]. rewrite Nat2Z.inj_add. cbn [Z.of_nat Pos.of_succ_nat]. lia.
Qed.

(** ** Refusals of [write] *)

(** [write] never stops with the rate-limit message for an account that
    has no row in [statstable]. *)
Lemma write_abort_first (h : host) (owner : account_name) (value : Z)
  (db db' : database) (m : string) :
  find owner (statstable db) = None ->
  write h owner value db = Abort m db' -> m <> too_early.
Proof.
  intros Hnone H. unfold write, require_auth in H.
  apply bind_abort in H. destruct H as [H|[[] [d1 [H1 H]]]].
  { apply eosio_assert_abort in H. destruct H as [_ [-> _]]. discriminate. }
  apply eosio_assert_done in H1. destruct H1 as [_ ->].
  apply bind_abort in H. destruct H as [H|[[] [d2 [H2 H]]]].
  { apply eosio_assert_abort in H. destruct H as [_ [-> _]]. discriminate. }
  apply eosio_assert_done in H2. destruct H2 as [_ ->].
  destruct (check_oracle_pure h owner db) as [b Hb].
  apply bind_abort in H. destruct H as [H|[q [d3 [H3 H]]]].
  { rewrite Hb in H. discriminate H. }
  rewrite Hb in H3. injection H3 as -> ->.
  apply bind_abort in H. destruct H as [H|[[] [d4 [H4 H]]]].
  { apply eosio_assert_abort in H. destruct H as [_ [-> _]]. discriminate. }
  apply eosio_assert_done in H4. destruct H4 as [_ ->].
  apply bind_abort in H. destruct H as [H|[[] [d5 [H5 H]]]].
  { apply check_last_push_abort in H. destruct H as [_ [_ [last Hl]]]. congruence. }
  apply host_message_not_too_early. eapply update_abort. exact H.
Qed.

Lemma check_last_push_creates (h : host) (owner : account_name) (db : database) :
  find owner (statstable db) = None ->
  exists db',
    check_last_push h owner db = Done tt db' /\
    find owner (statstable db')
    = Some {| eosusdstats.owner := owner;
              eosusdstats.timestamp := current_time h;
              eosusdstats.count := 0 |} /\
    (forall other, other <> owner ->
                   find other (statstable db') = find other (statstable db)) /\
    usdtable db' = usdtable db /\
    oraclestable db' = oraclestable db.
Proof.
  intros Hnone. destruct (check_last_push_first h owner db Hnone) as [t' [Em Hc]].
  exists (with_statstable t' db). split; [exact Hc|].
  split; [apply (@find_emplace _ eosusdstats_key _ _ _ Em)|].
  split; [|split; reflexivity].
  intros other Hne.
  apply (@find_emplace_other _ eosusdstats_key other
           {| eosusdstats.owner := owner;
              eosusdstats.timestamp := current_time h;
              eosusdstats.count := 0 |} (statstable db) t'); [exact Hne|exact Em].
Qed.

(** ** Qualification *)

(** For every name but the zero name, [check_oracle] answers whether
    the name is an approved oracle or one of the first 21 active
    producers, and it leaves the database as it is. *)
Lemma check_oracle_nonzero (h : host) (owner : account_name) (db : database) :
  owner <> 0 ->
  exists b,
    check_oracle h owner db = Done b db /\
    (b = true <->
     in_allow_list owner db \/ In owner (firstn 21 (active_producers h))).
Proof.
  intros Hnz. unfold check_oracle, in_allow_list.
  destruct (approved owner (oraclestable db)) eqn:Ea.
  - exists true. split; [reflexivity|]. split; [|reflexivity].
    intros _. left. apply approved_iff. exact Ea.
  - eexists. split; [reflexivity|].
    rewrite (producers_loop_nonzero h owner Hnz). split; [intros H; right; exact H|].
    intros [H|H]; [|exact H]. apply approved_iff in H. congruence.
Qed.

(** ** The approved oracles *)

Lemma emplace_oracles_all (l : list account_name) (db : database) :
  ascending (oraclestable db) = true ->
  (NoDup l /\ (forall a, In a l -> ~ in_allow_list a db) ->
   exists t,
     emplace_oracles l db = Done tt (with_oraclestable t db) /\
     ascending t = true /\
     forall a, In a (map oracles.owner t) <-> In a l \/ in_allow_list a db) /\
  (~ (NoDup l /\ (forall a, In a l -> ~ in_allow_list a db)) ->
   exists db', emplace_oracles l db = Abort duplicate_key db').
Proof.
  revert db. induction l as [|a l IH]; intros db Hasc.
  - split.
    + intros _. exists (oraclestable db). split; [destruct db; reflexivity|].
      split; [exact Hasc|]. intros a. unfold in_allow_list. cbn [In]. tauto.
    + intros H. exfalso. apply H. split; [constructor|]. intros a [].
  - set (r := {| oracles.owner := a |}).
    change (emplace_oracles (a :: l)) with (oracles_emplace r ;; emplace_oracles l).
    unfold bind, oracles_emplace.
    destruct (in_dec Z.eq_dec a (map oracles.owner (oraclestable db))) as [Hin|Hout].
    + assert (Em : emplace r (oraclestable db) = None).
      { apply emplace_duplicate; [exact Hasc|].
        apply in_map_iff in Hin. destruct Hin as [x [Hx Hi]].
        apply Exists_exists. exists x. split; [exact Hi|exact Hx]. }
      rewrite Em. split.
      * intros [_ Hd]. exfalso. apply (Hd a); [left; reflexivity|exact Hin].
      * intros _. eexists. reflexivity.
    + assert (Hfresh : Forall (fun x : oracles.row => primary_key x <> primary_key r)
                         (oraclestable db)).
      { apply Forall_forall. intros x Hx Hk. apply Hout.
        apply in_map_iff. exists x. split; [exact Hk|exact Hx]. }
      destruct (emplace_fresh r (oraclestable db) Hfresh) as [t1 [Em P]].
      rewrite Em.
      pose proof (emplace_ascending r _ _ Hasc Em) as Hasc1.
      assert (Hkeys : forall b, in_allow_list b (with_oraclestable t1 db)
                                <-> b = a \/ in_allow_list b db).
      { intros b. unfold in_allow_list. cbn [oraclestable with_oraclestable].
        split.
        - intros H. eapply Permutation_in in H; [|apply Permutation_map; exact P].
          destruct H as [H|H]; [left; symmetry; exact H|right; exact H].
        - intros H. eapply Permutation_in;
            [apply Permutation_sym, Permutation_map; exact P|].
          destruct H as [H|H]; [left; symmetry; exact H|right; exact H]. }
      destruct (IH (with_oraclestable t1 db) Hasc1) as [IHok IHko].
      split.
      * intros [Hnd Hd]. inversion Hnd as [|? ? Hal Hndl]; subst.
        destruct IHok as [t [Hrun [Hat Hmem]]].
        { split; [exact Hndl|]. intros b Hb Hb'. apply Hkeys in Hb'.
          destruct Hb' as [->|Hb']; [contradiction|].
          apply (Hd b); [right; exact Hb|exact Hb']. }
        exists t. split; [rewrite Hrun; reflexivity|]. split; [exact Hat|].
        intros b. rewrite Hmem, Hkeys. simpl. split.
        -- intros [H|[H|H]]; [left; right; exact H|left; left; symmetry; exact H|right; exact H].
        -- intros [[H|H]|H]; [right; left; symmetry; exact H|left; exact H|right; right; exact H].
      * intros Hno. apply IHko. intros [Hndl Hd]. apply Hno. split.
        -- constructor; [|exact Hndl]. intros Hal. apply (Hd a Hal).
           apply Hkeys. left. reflexivity.
        -- intros b [<-|Hb]; [exact Hout|].
           intros Hb'. apply (Hd b Hb). apply Hkeys. right. exact Hb'.
Qed.

(** ** Consequences along histories *)

(** X9.  What [check_oracle] computes, for every name, without changing
    the database: [true] exactly when the name is an approved oracle, or
    one of the first 21 active producers, or the zero name while fewer
    than 21 producers are active (the unused slots of [producers] hold
    zero). *)
Lemma check_oracle_answer (h : host) (owner : account_name) (db : database) :
  exists b,
    check_oracle h owner db = Done b db /\
    (b = true <->
     in_allow_list owner db \/
     In owner (firstn 21 (active_producers h)) \/
     (owner = 0 /\ (length (active_producers h) < 21)%nat)).
Proof.
  destruct (Z.eq_dec owner 0) as [Hz|Hnz].
  - subst owner. unfold check_oracle, in_allow_list.
    destruct (approved 0 (oraclestable db)) eqn:Ea.
    + exists true. split; [reflexivity|]. split; [|reflexivity].
      intros _. left. apply approved_iff. exact Ea.
    + eexists. split; [reflexivity|].
      rewrite producers_loop_iff, producers_array.
      set (act := firstn 21 (active_producers h)).
      assert (Hlen : length act = Nat.min 21 (length (active_producers h)))
        by apply length_firstn.
      unfold account_name in *. split.
      * intros [j [Hj Hn]].
        destruct (Nat.lt_ge_cases j (length act)) as [Hlt|Hge].
        -- right. left. rewrite app_nth1 in Hn by exact Hlt.
           rewrite <- Hn. apply nth_In. exact Hlt.
        -- right. right. split; [reflexivity|lia].
      * intros [H|[H|[_ H]]].
        -- apply approved_iff in H. congruence.
        -- destruct (In_nth _ _ 0 H) as [j [Hj Hn]].
           exists j. split; [lia|]. rewrite app_nth1 by exact Hj. exact Hn.
        -- exists (length act). split; [lia|].
           rewrite app_nth2 by lia. rewrite Nat.sub_diag.
           destruct (21 - length act)%nat eqn:E; [lia|reflexivity].
  - destruct (check_oracle_nonzero h owner db Hnz) as [b [Hb Hiff]].
    exists b. split; [exact Hb|]. rewrite Hiff. split.
    + intros [H|H]; [left; exact H|right; left; exact H].
    + intros [H|[H|[H _]]]; [left; exact H|right; exact H|contradiction].
Qed.

Lemma update_values_in_range
  (h : host) (owner : account_name) (value : Z) (db db' : database) :
  window_inv (usdtable db) ->
  Forall value_in_range (usdtable db) ->
  val_min <= value <= val_max ->
  update_eosusd_oracle h owner value db = Done tt db' ->
  Forall value_in_range (usdtable db').
Proof.
  intros [Hwk [Hlen Hnew]] Hall Hv Hup.
  destruct (usdtable db) as [|newest rest] eqn:E.
  - rewrite (update_empty h owner value db E) in Hup. injection Hup as <-.
    cbn [usdtable with_usdtable]. constructor; [exact Hv|constructor].
  - destruct (Nat.eq_dec (length (newest :: rest)) 21) as [Hfull|Hpart].
    + assert (Hwk' : well_keyed (usdtable db) = true) by (rewrite E; exact Hwk).
      assert (Hlen' : length (usdtable db) = 21%nat) by (rewrite E; exact Hfull).
      destruct (update_full h owner value db Hwk' Hlen')
        as [nw [oldest [t' [_ [Hsplit [_ [Hem Hup']]]]]]].
      rewrite Hup in Hup'. injection Hup' as ->. cbn [usdtable with_usdtable].
      eapply Permutation_Forall; [apply Permutation_sym, (emplace_perm _ _ _ Hem)|].
      constructor; [exact Hv|].
      rewrite E in Hsplit. rewrite Hsplit in Hall. rewrite E.
      apply Forall_app in Hall. tauto.
    + assert (Hl : (length (newest :: rest) < 21)%nat) by lia.
      specialize (Hnew Hl newest eq_refl).
      assert (Hid : 0 < eosusd.id newest < uint64_modulus).
      { rewrite Hnew. cbn [length] in *. unfold uint64_modulus. lia. }
      rewrite (update_partial h owner value db newest rest E) in Hup;
        [|cbn [length] in Hl; lia|exact Hid].
      injection Hup as <-. cbn [usdtable with_usdtable].
      constructor; [exact Hv|exact Hall].
Qed.

(** Along every history the window is well keyed and its values are
    within [val_min, val_max]. *)
Lemma history_window (history : list (host * call)) :
  window_inv (usdtable (replay history empty_database)) /\
  Forall value_in_range (usdtable (replay history empty_database)).
Proof.
  assert (H : forall db,
             window_inv (usdtable db) /\ Forall value_in_range (usdtable db) ->
             window_inv (usdtable (replay history db)) /\
             Forall value_in_range (usdtable (replay history db))).
  { induction history as [|[h c] history IH]; intros db Hdb; [exact Hdb|].
    cbn [replay]. apply IH. destruct Hdb as [Hinv Hall].
    split; [apply run_call_keeps_inv; exact Hinv|].
    destruct (run_call h c db) as [[] db'|m db'] eqn:E; [|exact Hall].
    cbn [commit]. destruct c as [owner value|l|]; cbn [run_call] in E.
    - apply write_done in E. destruct E as [_ [Hv [_ [db1 [Hc Hu]]]]].
      apply check_last_push_frame in Hc. destruct Hc as [Hw _].
      rewrite <- Hw in Hinv, Hall.
      apply (update_values_in_range h owner value db1 db' Hinv Hall Hv Hu).
    - apply setoracles_frame in E. destruct E as [-> _]. exact Hall.
    - destruct (has_auth h titan_account) eqn:Ha.
      + rewrite (clear_done h db Ha) in E. injection E as <-. constructor.
      + rewrite (clear_abort h db Ha) in E. discriminate E. }
  apply H. split; [apply empty_window_inv|constructor].
Qed.

(** Along every history, an accepted [write] into a full window takes
    out the last datapoint and stores the new one under the newest key
    minus one; the new datapoint carries the floor of a ninth of the sum
    of the values ranked 7th to 15th in the resulting window: the sum
    does not wrap. *)
Lemma history_full_window_average
  (history : list (host * call)) (h : host) (owner : account_name) (value : Z)
  (db' : database) :
  length (usdtable (replay history empty_database)) = 21%nat ->
  write h owner value (replay history empty_database) = Done tt db' ->
  exists newest new,
    begin (usdtable (replay history empty_database)) = Some newest /\
    emplace new (removelast (usdtable (replay history empty_database)))
    = Some (usdtable db') /\
    find (wrap64 (eosusd.id newest - 1)) (usdtable db') = Some new /\
    eosusd.id new = wrap64 (eosusd.id newest - 1) /\
    eosusd.owner new = owner /\
    eosusd.value new = value /\
    eosusd.timestamp new = current_time h /\
    eosusd.average new = sum (firstn 9 (skipn 6 (ranked (usdtable db')))) / 9.
Proof.
  intros Hlen Hw.
  destruct (history_window history) as [[Hwk _] Hall].
  revert Hwk Hall Hlen Hw. generalize (replay history empty_database).
  intros db Hwk Hall Hlen Hw.
  apply write_done in Hw. destruct Hw as [_ [Hv [_ [db1 [Hc Hu]]]]].
  apply check_last_push_frame in Hc. destruct Hc as [Hsame _].
  rewrite <- Hsame in *.
  destruct (update_full h owner value db1 Hwk Hlen)
    as [newest [oldest [t' [Hb [Hsplit [_ [Hem Hup]]]]]]].
  rewrite Hu in Hup. injection Hup as ->. cbn [usdtable with_usdtable].
  exists newest. eexists.
  split; [exact Hb|]. split; [exact Hem|].
  split; [apply (find_emplace _ _ _ Hem)|].
  do 4 (split; [reflexivity|]).
  cbn [eosusd.average]. unfold trimmed_average.
  rewrite wrap64_small; [reflexivity|].
  assert (Hr : Forall (fun x => 0 <= x <= val_max) (ranked t')).
  { eapply Permutation_Forall; [apply Permutation_sym, ranked_perm|].
    unfold values. apply Forall_map.
    eapply Permutation_Forall; [apply Permutation_sym, (emplace_perm _ _ _ Hem)|].
    constructor; [cbn [eosusd.value]; unfold val_min in Hv; lia|].
    rewrite Hsplit in Hall. apply Forall_app in Hall. destruct Hall as [Hall _].
    eapply Forall_impl; [|exact Hall]. unfold value_in_range, val_min. intros; lia. }
  pose proof (sum_bounds _ _ (firstn_skipn_Forall _ 9 6 _ Hr)) as Hb9.
  pose proof (firstn_le_length 9 (skipn 6 (ranked t'))) as Hn.
  unfold val_max, uint64_modulus in *. lia.
Qed.

(** In every history, [write] runs to the end exactly when its four
    checks pass: [update_eosusd_oracle] itself never stops. *)
Lemma history_write_accepted
  (history : list (host * call)) (h : host) (owner : account_name) (value : Z)
  (db1 : database) :
  has_auth h owner = true ->
  val_min <= value <= val_max ->
  check_oracle h owner (replay history empty_database)
  = Done true (replay history empty_database) ->
  check_last_push h owner (replay history empty_database) = Done tt db1 ->
  exists db', write h owner value (replay history empty_database) = Done tt db'.
Proof.
  intros Hauth Hv Hq Hc.
  destruct (history_window history) as [Hinv _].
  rewrite (write_steps h owner value _ Hauth Hv Hq).
  unfold bind. rewrite Hc.
  apply check_last_push_frame in Hc. destruct Hc as [Hsame _].
  rewrite <- Hsame in Hinv.
  destruct (update_keeps_inv h owner value db1 Hinv) as [db' [Hup _]].
  exists db'. exact Hup.
Qed.

(** * The claims *)

(** C1 (as amended).  When the window holds 21 datapoints,
    [update_eosusd_oracle] takes out the datapoint with the largest key,
    puts in the new one, and stores in the new one the floor of a ninth
    of the sum (modulo 2^64) of the values ranked 7th to 15th among the
    21 values of the resulting window: the 6 smallest and the 6 largest
    values are left out.  The sum does not wrap when the values are at
    most [val_max].  The 20 other datapoints are those of the window
    before, unchanged. *)
Theorem full_window_average_ranks_7_to_15
  (h : host) (owner : account_name) (value : Z) (db : database) :
  well_keyed (usdtable db) = true ->
  length (usdtable db) = 21%nat ->
  exists oldest rest new t',
    usdtable db = rest ++ [oldest] /\
    Forall (fun r => eosusd.id r < eosusd.id oldest) rest /\
    update_eosusd_oracle h owner value db = Done tt (with_usdtable t' db) /\
    Permutation t' (new :: rest) /\
    eosusd.owner new = owner /\
    eosusd.value new = value /\
    eosusd.timestamp new = current_time h /\
    StronglySorted Z.le (ranked t') /\
    Permutation (ranked t') (values t') /\
    length (ranked t') = 21%nat /\
    eosusd.average new = wrap64 (sum (firstn 9 (skipn 6 (ranked t')))) / 9 /\
    (Forall (fun r => 0 <= eosusd.value r <= val_max) t' ->
     eosusd.average new = sum (firstn 9 (skipn 6 (ranked t'))) / 9).
Proof.
  intros Hwk Hlen.
  destruct (update_full h owner value db Hwk Hlen)
    as [newest [oldest [t' [_ [Hsplit [Hlt [Hem Hup]]]]]]].
  pose proof (emplace_perm _ _ _ Hem) as P.
  eexists oldest, (removelast (usdtable db)), _, t'.
  split; [exact Hsplit|]. split; [exact Hlt|]. split; [exact Hup|].
  split; [exact P|]. do 3 (split; [reflexivity|]).
  split; [apply ranked_sorted|]. split; [apply ranked_perm|].
  split.
  { rewrite (Permutation_length (ranked_perm t')). unfold values.
    rewrite length_map, (Permutation_length P). simpl.
    apply (f_equal (@length _)) in Hsplit. rewrite length_app in Hsplit.
    simpl in Hsplit. lia. }
  split; [reflexivity|].
  intros Hrange. simpl eosusd.average. unfold trimmed_average.
  rewrite wrap64_small; [reflexivity|].
  assert (Hr : Forall (fun x => 0 <= x <= val_max) (ranked t')).
  { eapply Permutation_Forall; [apply Permutation_sym, ranked_perm|].
    unfold values. apply Forall_map. exact Hrange. }
  pose proof (sum_bounds _ _
                (firstn_skipn_Forall _ 9 6 _ Hr)) as Hb.
  pose proof (firstn_le_length 9 (skipn 6 (ranked t'))) as Hn.
  unfold val_max, uint64_modulus in *. lia.
Qed.

Lemma full_window_average_ranks_7_to_15_witness :
  exists oldest rest new t',
    usdtable (db_after 21) = rest ++ [oldest] /\
    Forall (fun r => eosusd.id r < eosusd.id oldest) rest /\
    update_eosusd_oracle (host_at 1320 alice) alice 2200 (db_after 21)
    = Done tt (with_usdtable t' (db_after 21)) /\
    Permutation t' (new :: rest) /\
    eosusd.owner new = alice /\
    eosusd.value new = 2200 /\
    eosusd.timestamp new = current_time (host_at 1320 alice) /\
    StronglySorted Z.le (ranked t') /\
    Permutation (ranked t') (values t') /\
    length (ranked t') = 21%nat /\
    eosusd.average new = wrap64 (sum (firstn 9 (skipn 6 (ranked t')))) / 9 /\
    (Forall (fun r => 0 <= eosusd.value r <= val_max) t' ->
     eosusd.average new = sum (firstn 9 (skipn 6 (ranked t'))) / 9).
Proof.
  apply (full_window_average_ranks_7_to_15 (host_at 1320 alice) alice 2200 (db_after 21)).
  - vm_compute. reflexivity.
  - vm_compute. reflexivity.
Defined.

(** C1 (as stated) fails.  The window holds the values 100, 200, ...,
    2100 and [alice] writes 2200: the resulting window holds 200, ...,
    2200, the code stores 1200 (the mean of 800 .. 1600, ranked 7th to
    15th), whereas the values ranked 6th to 14th, 700 .. 1500, have the
    mean 1100. *)
Lemma average_is_not_ranks_6_to_14 :
  length (usdtable (db_after 21)) = 21%nat /\
  write (host_at 1320 alice) alice 2200 (db_after 21) = Done tt (db_after 22) /\
  exists new,
    begin (usdtable (db_after 22)) = Some new /\
    eosusd.value new = 2200 /\
    eosusd.average new = 1200 /\
    spec_trimmed_average (usdtable (db_after 22)) = 1100 /\
    eosusd.average new <> spec_trimmed_average (usdtable (db_after 22)).
Proof.
  split; [vm_compute; reflexivity|]. split; [vm_compute; reflexivity|].
  eexists. split; [vm_compute; reflexivity|].
  split; [reflexivity|]. split; [reflexivity|].
  split; [vm_compute; reflexivity|]. vm_compute. discriminate.
Qed.

(** C2.  Along every history that starts from the empty database the
    window holds at most 21 datapoints; and when it holds 21, an accepted
    [write] takes out exactly the datapoint with the largest key and puts
    in the new one, so that 21 datapoints remain. *)
Theorem window_holds_at_most_21 (history : list (host * call)) :
  (length (usdtable (replay history empty_database)) <= 21)%nat /\
  forall (h : host) (owner : account_name) (value : Z) (db' : database),
    length (usdtable (replay history empty_database)) = 21%nat ->
    write h owner value (replay history empty_database) = Done tt db' ->
    exists oldest rest new,
      usdtable (replay history empty_database) = rest ++ [oldest] /\
      Forall (fun r => eosusd.id r < eosusd.id oldest) rest /\
      Permutation (usdtable db') (new :: rest) /\
      eosusd.owner new = owner /\
      eosusd.value new = value /\
      length (usdtable db') = 21%nat.
Proof.
  pose proof (replay_keeps_inv history empty_database empty_window_inv) as Hinv.
  set (db := replay history empty_database) in *.
  split; [destruct Hinv as [_ [H _]]; exact H|].
  intros h owner value db' Hlen Hw.
  apply write_done in Hw. destruct Hw as [_ [_ [_ [db1 [Hc Hu]]]]].
  apply check_last_push_frame in Hc. destruct Hc as [Hsame _].
  destruct Hinv as [Hwk _]. rewrite <- Hsame in Hwk, Hlen.
  destruct (update_full h owner value db1 Hwk Hlen)
    as [newest [oldest [t' [_ [Hsplit [Hlt [Hem Hup]]]]]]].
  rewrite Hu in Hup. injection Hup as ->.
  pose proof (emplace_perm _ _ _ Hem) as P.
  rewrite <- Hsame.
  eexists oldest, (removelast (usdtable db1)), _.
  split; [exact Hsplit|]. split; [exact Hlt|].
  split; [exact P|]. split; [reflexivity|]. split; [reflexivity|].
  simpl usdtable. rewrite (Permutation_length P). simpl.
  apply (f_equal (@length _)) in Hsplit. rewrite length_app in Hsplit.
  simpl in Hsplit. lia.
Qed.

Lemma window_holds_at_most_21_witness :
  exists oldest rest new,
    usdtable (db_after 21) = rest ++ [oldest] /\
    Forall (fun r => eosusd.id r < eosusd.id oldest) rest /\
    Permutation (usdtable (db_after 22)) (new :: rest) /\
    eosusd.owner new = alice /\
    eosusd.value new = 2200 /\
    length (usdtable (db_after 22)) = 21%nat.
Proof.
  apply (proj2 (window_holds_at_most_21 (approve :: minute_writes 21))
           (host_at 1320 alice) alice 2200 (db_after 22)).
  - vm_compute. reflexivity.
  - vm_compute. reflexivity.
Defined.

(** C3.  An account that has a row in [statstable] is refused with the
    rate-limit message when [current_time] is before the time of its
    last write plus [one_minute] (55,000,000 microseconds), and nothing
    has been written when it is refused; otherwise the row gets the
    current time and its count goes up by one, the other rows and the
    other tables staying as they are.  The time of the last write plus
    [one_minute] and the count plus one are taken to fit 64 bits. *)
Theorem write_is_rate_limited
  (h : host) (owner : account_name) (db : database) (last : eosusdstats.row) :
  find owner (statstable db) = Some last ->
  0 <= eosusdstats.timestamp last ->
  eosusdstats.timestamp last + one_minute < 2 ^ 64 ->
  0 <= eosusdstats.count last ->
  eosusdstats.count last + 1 < 2 ^ 64 ->
  (current_time h < eosusdstats.timestamp last + one_minute ->
   check_last_push h owner db = Abort too_early db /\
   forall value,
     has_auth h owner = true ->
     val_min <= value <= val_max ->
     check_oracle h owner db = Done true db ->
     write h owner value db = Abort too_early db /\
     commit db (write h owner value db) = db) /\
  (eosusdstats.timestamp last + one_minute <= current_time h ->
   exists db',
     check_last_push h owner db = Done tt db' /\
     find owner (statstable db')
     = Some {| eosusdstats.owner := owner;
               eosusdstats.timestamp := current_time h;
               eosusdstats.count := eosusdstats.count last + 1 |} /\
     (forall other, other <> owner ->
                    find other (statstable db') = find other (statstable db)) /\
     usdtable db' = usdtable db /\
     oraclestable db' = oraclestable db).
Proof.
  intros Hlast Ht0 Ht Hc0 Hc.
  change (2 ^ 64) with uint64_modulus in Ht, Hc.
  pose proof (check_last_push_again h owner db last Hlast) as Hcheck.
  rewrite wrap64_small in Hcheck by (unfold one_minute in *; lia).
  split.
  - intros Hearly.
    replace (eosusdstats.timestamp last + one_minute <=? current_time h) with false
      in Hcheck by (symmetry; apply Z.leb_gt; exact Hearly).
    split; [exact Hcheck|].
    intros value Hauth Hrange Hq.
    rewrite (write_steps h owner value db Hauth Hrange Hq).
    unfold bind. rewrite Hcheck. split; reflexivity.
  - intros Hlate.
    replace (eosusdstats.timestamp last + one_minute <=? current_time h) with true
      in Hcheck by (symmetry; apply Z.leb_le; exact Hlate).
    eexists. split; [exact Hcheck|].
    cbn [statstable with_statstable usdtable oraclestable].
    split; [|split; [|split; reflexivity]].
    + erewrite (@find_modify _ eosusdstats_key owner _ (statstable db) last);
        [|reflexivity|exact Hlast].
      cbn [eosusdstats.owner eosusdstats.timestamp eosusdstats.count].
      rewrite wrap64_small by lia.
      pose proof (find_key owner _ _ Hlast) as Hk.
      change (primary_key last) with (eosusdstats.owner last) in Hk.
      rewrite Hk. reflexivity.
    + intros other Hne. apply find_modify_other; [reflexivity|exact Hne].
Qed.

Lemma write_is_rate_limited_witness :
  (check_last_push (host_at 114 alice) alice (db_after 1)
   = Abort too_early (db_after 1) /\
   write (host_at 114 alice) alice 500 (db_after 1) = Abort too_early (db_after 1)) /\
  exists db',
    check_last_push (host_at 115 alice) alice (db_after 1) = Done tt db' /\
    find alice (statstable db')
    = Some {| eosusdstats.owner := alice;
              eosusdstats.timestamp := 115000000;
              eosusdstats.count := 1 |}.
Proof.
  assert (Hlast : find alice (statstable (db_after 1))
                  = Some {| eosusdstats.owner := alice;
                            eosusdstats.timestamp := 60000000;
                            eosusdstats.count := 0 |})
    by (vm_compute; reflexivity).
  split.
  - destruct (write_is_rate_limited (host_at 114 alice) alice (db_after 1) _ Hlast)
      as [Hearly _]; try (vm_compute; congruence).
    destruct Hearly as [Hc Hw]; [vm_compute; reflexivity|].
    split; [exact Hc|].
    apply (Hw 500); vm_compute; try reflexivity; split; congruence.
  - destruct (write_is_rate_limited (host_at 115 alice) alice (db_after 1) _ Hlast)
      as [_ Hlate]; try (vm_compute; congruence).
    destruct Hlate as [db' [Hc [Hf _]]]; [vm_compute; congruence|].
    exists db'. split; [exact Hc|exact Hf].
Defined.

(** C4.  From the empty window, the datapoint accepted after [k] others
    gets the key [uint64_max - k]: the window holds the last 21 of them
    under these keys, the first one ever gets [uint64_max], and each
    later one gets the key of the newest datapoint minus one, which is
    below every key of the window.  This holds for the first 2^64
    datapoints of a window, after which the key 0 has been used. *)
Theorem keys_decrease_in_insertion_order
  (points : list (host * account_name * Z))
  (h : host) (owner : account_name) (value : Z) :
  Z.of_nat (length points) < 2 ^ 64 ->
  exists db db' new,
    insert_all points empty_database = Done tt db /\
    map label (usdtable db) = firstn 21 (rev (numbered 0 points)) /\
    update_eosusd_oracle h owner value db = Done tt db' /\
    begin (usdtable db') = Some new /\
    label new = (uint64_max - Z.of_nat (length points), owner, value, current_time h) /\
    match begin (usdtable db) with
    | None => points = [] /\ eosusd.id new = uint64_max
    | Some newest => points <> [] /\ eosusd.id new = eosusd.id newest - 1
    end /\
    Forall (fun r => eosusd.id new < eosusd.id r) (usdtable db).
Proof.
  intros Hn. change (2 ^ 64) with uint64_modulus in Hn.
  destruct (insert_all_window points) as [db [Hrun [Hlab [Hinv Hhead]]]]; [lia|].
  destruct (insert_all_window (points ++ [(h, owner, value)]))
    as [db2 [Hrun2 [Hlab2 [_ Hhead2]]]].
  { rewrite length_app. cbn [length]. lia. }
  rewrite insert_all_app in Hrun2. unfold bind at 1 in Hrun2. rewrite Hrun in Hrun2.
  change (insert_all [(h, owner, value)])
    with (update_eosusd_oracle h owner value ;; ret tt) in Hrun2.
  apply bind_done in Hrun2. destruct Hrun2 as [[] [db' [Hup Hret]]].
  injection Hret as <-.
  rewrite numbered_app, rev_app_distr in Hlab2.
  cbn [numbered rev app] in Hlab2. rewrite Z.add_0_l in Hlab2.
  change (firstn 21 (?x :: ?l)) with (x :: firstn 20 l) in Hlab2.
  destruct (usdtable db') as [|new t2] eqn:E'; [discriminate|].
  cbn [map] in Hlab2.
  pose proof (f_equal (hd (label new)) Hlab2) as Hnew. cbn [hd] in Hnew.
  exists db, db', new.
  split; [exact Hrun|]. split; [exact Hlab|]. split; [exact Hup|].
  split; [rewrite E'; reflexivity|]. split; [exact Hnew|].
  assert (Hidnew : eosusd.id new = uint64_max - Z.of_nat (length points)).
  { apply (f_equal (fun p => fst (fst (fst p)))) in Hnew. exact Hnew. }
  destruct (usdtable db) as [|newest rest] eqn:E.
  - assert (points = []).
    { destruct points as [|p points]; [reflexivity|].
      apply (f_equal (@length _)) in Hlab.
      rewrite length_firstn, length_rev, numbered_length in Hlab.
      cbn [length map] in Hlab. lia. }
    subst points. cbn [begin hd_error]. split; [|constructor].
    split; [reflexivity|]. rewrite Hidnew. cbn [length Z.of_nat]. apply Z.sub_0_r.
  - specialize (Hhead newest eq_refl). cbn [begin hd_error].
    split.
    + split; [intros ->; cbn [length Z.of_nat] in Hhead; destruct Hinv as [Hwk _];
              destruct (well_keyed_inv _ Hwk) as [_ Hr]; inversion Hr; subst; lia|].
      rewrite Hidnew, Hhead. unfold uint64_max, uint64_modulus. lia.
    + destruct Hinv as [Hwk _]. destruct (well_keyed_inv _ Hwk) as [Hasc _].
      pose proof (ascending_head _ _ Hasc) as Hall.
      constructor.
      * rewrite Hidnew, Hhead. unfold uint64_max, uint64_modulus. lia.
      * eapply Forall_impl; [|exact Hall]. unfold key_lt.
        intros r Hr. change (primary_key newest) with (eosusd.id newest) in Hr.
        change (primary_key r) with (eosusd.id r) in Hr.
        rewrite Hidnew. rewrite Hhead in Hr. unfold uint64_max, uint64_modulus in *. lia.
Qed.

Lemma keys_decrease_in_insertion_order_witness :
  exists db db' new,
    insert_all [(host_at 60 alice, alice, 100); (host_at 120 bob, bob, 200)]
      empty_database = Done tt db /\
    map label (usdtable db)
    = firstn 21 (rev (numbered 0 [(host_at 60 alice, alice, 100);
                                  (host_at 120 bob, bob, 200)])) /\
    update_eosusd_oracle (host_at 180 alice) alice 300 db = Done tt db' /\
    begin (usdtable db') = Some new /\
    label new = (uint64_max - 2, alice, 300, current_time (host_at 180 alice)) /\
    match begin (usdtable db) with
    | None => [(host_at 60 alice, alice, 100); (host_at 120 bob, bob, 200)] = []
              /\ eosusd.id new = uint64_max
    | Some newest =>
        [(host_at 60 alice, alice, 100); (host_at 120 bob, bob, 200)] <> []
        /\ eosusd.id new = eosusd.id newest - 1
    end /\
    Forall (fun r => eosusd.id new < eosusd.id r) (usdtable db).
Proof.
  apply (keys_decrease_in_insertion_order
           [(host_at 60 alice, alice, 100); (host_at 120 bob, bob, 200)]
           (host_at 180 alice) alice 300).
  vm_compute. reflexivity.
Defined.

(** C5.  An account that has no row in [statstable] passes the
    rate-limit check whatever the current time is: the check creates its
    row with the current time and the count 0, and [write] cannot stop
    with the rate-limit message. *)
Theorem first_write_is_not_rate_limited
  (h : host) (owner : account_name) (db : database) :
  find owner (statstable db) = None ->
  (exists db',
     check_last_push h owner db = Done tt db' /\
     find owner (statstable db')
     = Some {| eosusdstats.owner := owner;
               eosusdstats.timestamp := current_time h;
               eosusdstats.count := 0 |} /\
     (forall other, other <> owner ->
                    find other (statstable db') = find other (statstable db)) /\
     usdtable db' = usdtable db /\
     oraclestable db' = oraclestable db) /\
  forall value m db'', write h owner value db = Abort m db'' -> m <> too_early.
Proof.
  intros Hnone. split; [apply check_last_push_creates; exact Hnone|].
  intros value m db''. apply write_abort_first. exact Hnone.
Qed.

Lemma first_write_is_not_rate_limited_witness :
  (exists db',
     check_last_push (host_at 61 bob) bob (db_after 1) = Done tt db' /\
     find bob (statstable db')
     = Some {| eosusdstats.owner := bob;
               eosusdstats.timestamp := current_time (host_at 61 bob);
               eosusdstats.count := 0 |} /\
     (forall other, other <> bob ->
                    find other (statstable db') = find other (statstable (db_after 1))) /\
     usdtable db' = usdtable (db_after 1) /\
     oraclestable db' = oraclestable (db_after 1)) /\
  forall value m db'',
    write (host_at 61 bob) bob value (db_after 1) = Abort m db'' -> m <> too_early.
Proof.
  apply (first_write_is_not_rate_limited (host_at 61 bob) bob (db_after 1)).
  vm_compute. reflexivity.
Defined.

(** C6.  A [write] that its owner authorised with the value
    [val_min - 1] or [val_max + 1] stops with the range message before
    anything has been read or written: the three tables are as before,
    whether or not the owner is qualified or rate-limited. *)
Theorem out_of_range_write_is_refused
  (h : host) (owner : account_name) (value : Z) (db : database) :
  has_auth h owner = true ->
  value = val_min - 1 \/ value = val_max + 1 ->
  write h owner value db = Abort out_of_range db /\
  commit db (write h owner value db) = db.
Proof.
  intros Hauth Hv.
  assert (H : write h owner value db = Abort out_of_range db).
  { unfold write, require_auth.
    unfold bind at 1. unfold eosio_assert at 1. rewrite Hauth.
    unfold bind at 1. unfold eosio_assert at 1.
    replace ((val_min <=? value) && (value <=? val_max)) with false; [reflexivity|].
    symmetry. apply andb_false_iff. unfold val_min, val_max in *.
    destruct Hv as [-> | ->]; [left|right]; reflexivity. }
  rewrite H. split; reflexivity.
Qed.

Lemma out_of_range_write_is_refused_witness :
  (write (host_at 61 alice) alice 99 (db_after 1) = Abort out_of_range (db_after 1) /\
   commit (db_after 1) (write (host_at 61 alice) alice 99 (db_after 1)) = db_after 1) /\
  (write (host_at 61 titan_account) titan_account 100000001 (db_after 1)
   = Abort out_of_range (db_after 1) /\
   commit (db_after 1)
     (write (host_at 61 titan_account) titan_account 100000001 (db_after 1))
   = db_after 1).
Proof.
  split.
  - apply (out_of_range_write_is_refused (host_at 61 alice) alice 99 (db_after 1));
      [vm_compute; reflexivity|left; reflexivity].
  - apply (out_of_range_write_is_refused
             (host_at 61 titan_account) titan_account 100000001 (db_after 1));
      [vm_compute; reflexivity|right; reflexivity].
Defined.

(** The zero name is the one name for which the answer of
    [check_oracle] is not a membership.  On a chain with the single
    active producer [eosio] and with no approved oracle, [check_oracle]
    answers [true] for it: the 20 slots of [producers] that the host did
    not fill still hold the zero of their initialisation, and the loop
    compares [owner] with all 21 slots.  The zero name is the empty
    name; no account bears it, and [write] asks for the authority of
    [owner] before it calls [check_oracle]. *)
Remark zero_name_is_qualified :
  check_oracle (host_at 0 alice) 0 empty_database = Done true empty_database /\
  ~ in_allow_list 0 empty_database /\
  ~ In 0 (active_producers (host_at 0 alice)).
Proof.
  split; [vm_compute; reflexivity|]. split.
  - intros H. exact H.
  - intros [H|H]; [discriminate H|exact H].
Qed.

(** C7.  For the name of an account, which is never the zero name,
    [check_oracle] answers [true] exactly when the name is an approved
    oracle (a row of [oraclestable]) or one of the active producers that
    the host copies into the 21 slots of [producers], the first 21 of
    the schedule at most; otherwise it answers [false].  In either case
    it runs to the end and leaves the three tables as they are: being
    absent from both lists is an answer, not a failure. *)
Theorem check_oracle_decides_qualification
  (h : host) (owner : account_name) (db : database) :
  owner <> 0 ->
  (length (firstn 21 (active_producers h)) <= 21)%nat /\
  (in_allow_list owner db \/ In owner (firstn 21 (active_producers h)) ->
   check_oracle h owner db = Done true db) /\
  (~ (in_allow_list owner db \/ In owner (firstn 21 (active_producers h))) ->
   check_oracle h owner db = Done false db).
Proof.
  intros Hnz. split; [apply firstn_le_length|].
  destruct (check_oracle_nonzero h owner db Hnz) as [b [Hb Hiff]].
  split; intros H.
  - apply Hiff in H. rewrite Hb, H. reflexivity.
  - destruct b; [|exact Hb]. exfalso. apply H, Hiff. reflexivity.
Qed.

Lemma check_oracle_decides_qualification_witness :
  check_oracle (host_at 0 alice) alice (db_after 0) = Done true (db_after 0) /\
  check_oracle (host_at 0 alice) eosio (db_after 0) = Done true (db_after 0) /\
  check_oracle (host_at 0 alice) titan_account (db_after 0)
  = Done false (db_after 0).
Proof.
  split; [|split].
  - apply (check_oracle_decides_qualification (host_at 0 alice) alice (db_after 0));
      [vm_compute; discriminate|].
    left. vm_compute. left. reflexivity.
  - apply (check_oracle_decides_qualification (host_at 0 alice) eosio (db_after 0));
      [vm_compute; discriminate|].
    right. vm_compute. left. reflexivity.
  - apply (check_oracle_decides_qualification
             (host_at 0 alice) titan_account (db_after 0));
      [vm_compute; discriminate|].
    vm_compute. intros [[H|[H|[]]]|[H|[]]]; discriminate H.
Defined.

(** C8 (as amended).  [setoracles], authorised by the controlling
    account, erases every approved oracle and then inserts the names of
    the list.  For a list without repetition, the empty list included,
    it runs to the end and the approved oracles are exactly the names
    of the list.  For a list that repeats a name the second insertion
    of that name is refused, [oracles] having one row per primary key
    [owner]: the action stops and the host restores the list of before. *)
Theorem setoracles_replaces_approved_oracles
  (h : host) (oracleslist : list account_name) (db : database) :
  has_auth h titan_account = true ->
  (NoDup oracleslist ->
   exists db',
     setoracles h oracleslist db = Done tt db' /\
     usdtable db' = usdtable db /\
     statstable db' = statstable db /\
     forall a, in_allow_list a db' <-> In a oracleslist) /\
  (~ NoDup oracleslist ->
   exists db',
     setoracles h oracleslist db = Abort duplicate_key db' /\
     commit db (setoracles h oracleslist db) = db).
Proof.
  intros Hauth.
  assert (Hrun : setoracles h oracleslist db
                 = emplace_oracles oracleslist (with_oraclestable [] db)).
  { unfold setoracles, require_auth, bind, eosio_assert. rewrite Hauth.
    rewrite erase_all_empty. reflexivity. }
  destruct (emplace_oracles_all oracleslist (with_oraclestable [] db) eq_refl)
    as [Hok Hko].
  split.
  - intros Hnd. destruct Hok as [t [Hdone [_ Hmem]]].
    { split; [exact Hnd|]. intros a _ H. exact H. }
    exists (with_oraclestable t db). split; [rewrite Hrun; exact Hdone|].
    split; [reflexivity|]. split; [reflexivity|].
    intros a. unfold in_allow_list at 1. cbn [oraclestable with_oraclestable].
    rewrite Hmem. unfold in_allow_list. cbn [oraclestable with_oraclestable map In].
    tauto.
  - intros Hdup. destruct Hko as [db' Habort].
    { intros [Hnd _]. contradiction. }
    exists db'. rewrite Hrun, Habort. split; reflexivity.
Qed.

Lemma setoracles_replaces_approved_oracles_witness :
  (exists db',
     setoracles (host_at 9 titan_account) [eosio; alice] (db_after 1) = Done tt db' /\
     usdtable db' = usdtable (db_after 1) /\
     statstable db' = statstable (db_after 1) /\
     forall a, in_allow_list a db' <-> In a [eosio; alice]) /\
  (exists db',
     setoracles (host_at 9 titan_account) [] (db_after 1) = Done tt db' /\
     usdtable db' = usdtable (db_after 1) /\
     statstable db' = statstable (db_after 1) /\
     forall a, in_allow_list a db' <-> In a []).
Proof.
  split.
  - apply (setoracles_replaces_approved_oracles
             (host_at 9 titan_account) [eosio; alice] (db_after 1)).
    + vm_compute. reflexivity.
    + repeat constructor; simpl; intros H; repeat destruct H as [H|H]; try discriminate H; exact H.
  - apply (setoracles_replaces_approved_oracles
             (host_at 9 titan_account) [] (db_after 1)).
    + vm_compute. reflexivity.
    + constructor.
Defined.

(** C8 (as stated) fails.  [alice] and [bob] are approved; [setoracles]
    with the list [alice; alice] does not run to the end, and after the
    host has restored the table [bob] is still approved although the
    list does not name it. *)
Lemma repeated_oracle_is_refused :
  (exists db',
     setoracles (host_at 9 titan_account) [alice; alice] (db_after 0)
     = Abort duplicate_key db') /\
  in_allow_list bob
    (commit (db_after 0)
       (setoracles (host_at 9 titan_account) [alice; alice] (db_after 0))) /\
  ~ In bob [alice; alice].
Proof.
  split; [eexists; vm_compute; reflexivity|]. split.
  - vm_compute. right. left. reflexivity.
  - intros [H|[H|H]]; [discriminate H|discriminate H|exact H].
Qed.

(** C9.  [clear], authorised by the controlling account, leaves the
    three tables empty.  After it every account passes the rate-limit
    check as on its first write (a row with the current time and the
    count 0 is created), and [write] cannot stop with the rate-limit
    message, whatever happened before the [clear]. *)
Theorem clear_resets_rate_limit (h : host) (db : database) :
  has_auth h titan_account = true ->
  clear h db = Done tt empty_database /\
  usdtable (commit db (clear h db)) = [] /\
  statstable (commit db (clear h db)) = [] /\
  oraclestable (commit db (clear h db)) = [] /\
  forall (h' : host) (owner : account_name),
    check_last_push h' owner (commit db (clear h db))
    = Done tt (with_statstable
                 [{| eosusdstats.owner := owner;
                     eosusdstats.timestamp := current_time h';
                     eosusdstats.count := 0 |}] empty_database) /\
    forall value m db'',
      write h' owner value (commit db (clear h db)) = Abort m db'' ->
      m <> too_early.
Proof.
  intros Hauth. rewrite (clear_done h db Hauth). cbn [commit].
  split; [reflexivity|]. do 3 (split; [reflexivity|]).
  intros h' owner. split; [reflexivity|].
  intros value m db''. apply write_abort_first. reflexivity.
Qed.

Lemma clear_resets_rate_limit_witness :
  write (host_at 61 alice) alice 500 (db_after 1) = Abort too_early (db_after 1) /\
  clear (host_at 62 titan_account) (db_after 1) = Done tt empty_database /\
  forall value m db'',
    write (host_at 63 alice) alice value
      (commit (db_after 1) (clear (host_at 62 titan_account) (db_after 1)))
    = Abort m db'' ->
    m <> too_early.
Proof.
  split; [vm_compute; reflexivity|].
  destruct (clear_resets_rate_limit (host_at 62 titan_account) (db_after 1))
    as [Hc [_ [_ [_ Hw]]]]; [vm_compute; reflexivity|].
  split; [exact Hc|].
  exact (proj2 (Hw (host_at 63 alice) alice)).
Defined.

(** C10.  The key of an accepted datapoint is the newest key minus one
    in 64-bit arithmetic: when the newest key is 0 the datapoint gets
    [2^64 - 1], which is above the newest key; when the newest key is
    not 0 it gets a key strictly below it. *)
Theorem key_wraps_below_zero
  (h : host) (owner : account_name) (value : Z) (db db' : database)
  (newest : eosusd.row) :
  well_keyed (usdtable db) = true ->
  (length (usdtable db) <= 21)%nat ->
  begin (usdtable db) = Some newest ->
  update_eosusd_oracle h owner value db = Done tt db' ->
  exists new,
    find (wrap64 (eosusd.id newest - 1)) (usdtable db') = Some new /\
    eosusd.owner new = owner /\
    eosusd.value new = value /\
    eosusd.timestamp new = current_time h /\
    eosusd.id new = (eosusd.id newest - 1) mod 2 ^ 64 /\
    (eosusd.id newest = 0 ->
     eosusd.id new = 2 ^ 64 - 1 /\ eosusd.id newest < eosusd.id new) /\
    (eosusd.id newest <> 0 ->
     eosusd.id new = eosusd.id newest - 1 /\ eosusd.id new < eosusd.id newest).
Proof.
  intros Hwk Hlen Hb Hup.
  destruct (update_new_row h owner value db db' newest Hwk Hlen Hb Hup)
    as [new [Hf [Hid [Ho [Hv Ht]]]]].
  exists new. do 4 (split; [assumption|]).
  split; [exact Hid|].
  destruct (well_keyed_inv _ Hwk) as [_ Hrange].
  destruct (usdtable db) as [|x rest]; [discriminate|]. injection Hb as ->.
  inversion Hrange as [|? ? Hn _]; subst.
  split.
  - intros Hz. rewrite Hid, Hz. split; [reflexivity|]. vm_compute. reflexivity.
  - intros Hnz. rewrite Hid, wrap64_small by lia. split; [reflexivity|lia].
Qed.

Lemma key_wraps_below_zero_witness :
  exists new,
    find (wrap64 (0 - 1))
         (usdtable (commit wrapped_db
                      (update_eosusd_oracle (host_at 9999 alice) alice 5000 wrapped_db)))
    = Some new /\
    eosusd.owner new = alice /\
    eosusd.value new = 5000 /\
    eosusd.timestamp new = current_time (host_at 9999 alice) /\
    eosusd.id new = (0 - 1) mod 2 ^ 64 /\
    (0 = 0 -> eosusd.id new = 2 ^ 64 - 1 /\ 0 < eosusd.id new) /\
    (0 <> 0 -> eosusd.id new = 0 - 1 /\ eosusd.id new < 0).
Proof.
  apply (key_wraps_below_zero (host_at 9999 alice) alice 5000 wrapped_db
           (commit wrapped_db
              (update_eosusd_oracle (host_at 9999 alice) alice 5000 wrapped_db))
           {| eosusd.id := 0; eosusd.owner := alice; eosusd.value := 2100;
              eosusd.average := 2100; eosusd.timestamp := 1260000000 |}).
  - vm_compute. reflexivity.
  - vm_compute. lia.
  - vm_compute. reflexivity.
  - vm_compute. reflexivity.
Defined.

(** * Further properties *)

(** ** What one action touches *)

Lemma next_values_done (n : nat) (itr : value_itr) (avg a : Z) (db db' : database) :
  next_values n itr avg db = Done a db' -> db' = db.
Proof.
  revert itr avg db. induction n as [|n IH]; intros itr avg db H.
  - injection H as _ <-. reflexivity.
  - cbn [next_values] in H. unfold bind, incr, deref in H.
    destruct itr as [|x itr]; [discriminate|].
    destruct (hd_error itr) as [r|]; [|discriminate].
    apply IH in H. exact H.
Qed.

Lemma incr_done (itr itr' : value_itr) (db db' : database) :
  incr itr db = Done itr' db' -> db' = db.
Proof.
  unfold incr. destruct itr; [discriminate|]. intros [= _ <-]. reflexivity.
Qed.

(** [update_eosusd_oracle] writes to [usdtable] only. *)
Lemma update_frame (h : host) (owner : account_name) (value : Z) (db db' : database) :
  update_eosusd_oracle h owner value db = Done tt db' ->
  statstable db' = statstable db /\ oraclestable db' = oraclestable db.
Proof.
  unfold update_eosusd_oracle. intros H.
  destruct (0 <? Z.of_nat (length (usdtable db))).
  - apply bind_done in H. destruct H as [latest [d0 [H0 H]]].
    unfold deref in H0. destruct (begin (usdtable db)); [|discriminate].
    injection H0 as _ <-.
    destruct (datapoints_count <? Z.of_nat (length (usdtable db)) + 1).
    + apply bind_done in H. destruct H as [oldest [d1 [H1 H]]].
      unfold deref in H1. destruct (back (usdtable db)); [|discriminate].
      injection H1 as _ <-.
      apply bind_done in H. destruct H as [[] [d2 [H2 H]]].
      unfold usdstore_erase in H2. injection H2 as <-.
      apply bind_done in H. destruct H as [c_itr [d3 [H3 H]]].
      unfold usdstore_emplace in H3.
      destruct (emplace _ _) as [t|]; [|discriminate]. injection H3 as _ <-.
      cbv beta zeta in H.
      apply bind_done in H. destruct H as [itr [d4 [H4 H]]].
      injection H4 as _ <-.
      do 5 (apply bind_done in H;
            let i := fresh "i" in let d := fresh "d" in let Hi := fresh "Hi" in
            destruct H as [i [d [Hi H]]];
            apply incr_done in Hi; subst d).
      apply bind_done in H. destruct H as [avg [d9 [H9 H]]].
      apply next_values_done in H9. subst d9.
      unfold usdstore_modify in H. injection H as <-. split; reflexivity.
    + apply bind_done in H. destruct H as [k [d1 [H1 H]]].
      unfold usdstore_emplace in H1.
      destruct (emplace _ _) as [t|]; [|discriminate]. injection H1 as _ <-.
      injection H as <-. split; reflexivity.
  - apply bind_done in H. destruct H as [k [d1 [H1 H]]].
    unfold usdstore_emplace in H1.
    destruct (emplace _ _) as [t|]; [|discriminate]. injection H1 as _ <-.
    injection H as <-. split; reflexivity.
Qed.

(** What [check_last_push] leaves behind when it lets the owner pass. *)
Lemma check_last_push_result (h : host) (owner : account_name) (db db' : database) :
  check_last_push h owner db = Done tt db' ->
  find owner (statstable db')
  = Some {| eosusdstats.owner := owner;
            eosusdstats.timestamp := current_time h;
            eosusdstats.count :=
              match find owner (statstable db) with
              | None => 0
              | Some last => wrap64 (eosusdstats.count last + 1)
              end |} /\
  (forall other, other <> owner ->
                 find other (statstable db') = find other (statstable db)) /\
  match find owner (statstable db) with
  | None => True
  | Some last => wrap64 (eosusdstats.timestamp last + one_minute) <= current_time h
  end.
Proof.
  destruct (find owner (statstable db)) as [last|] eqn:E.
  - rewrite (check_last_push_again h owner db last E).
    destruct (Z.leb_spec (wrap64 (eosusdstats.timestamp last + one_minute))
                (current_time h)) as [Hle|Hgt]; [|discriminate].
    intros [= <-]. cbn [statstable with_statstable].
    split; [|split; [|exact Hle]].
    + erewrite (@find_modify _ eosusdstats_key owner _ (statstable db) last);
        [|reflexivity|exact E].
      pose proof (find_key owner _ _ E) as Hk.
      change (primary_key last) with (eosusdstats.owner last) in Hk.
      rewrite Hk. reflexivity.
    + intros other Hne. apply find_modify_other; [reflexivity|exact Hne].
  - destruct (check_last_push_creates h owner db E) as [d [Hc [Hf [Ho _]]]].
    rewrite Hc. intros [= <-]. split; [exact Hf|]. split; [exact Ho|exact I].
Qed.

(** What a [write] that ran to the end has written besides the
    datapoint. *)
Lemma write_stats (h : host) (owner : account_name) (value : Z) (db db' : database) :
  write h owner value db = Done tt db' ->
  oraclestable db' = oraclestable db /\
  find owner (statstable db')
  = Some {| eosusdstats.owner := owner;
            eosusdstats.timestamp := current_time h;
            eosusdstats.count :=
              match find owner (statstable db) with
              | None => 0
              | Some last => wrap64 (eosusdstats.count last + 1)
              end |} /\
  (forall other, other <> owner ->
                 find other (statstable db') = find other (statstable db)) /\
  match find owner (statstable db) with
  | None => True
  | Some last => wrap64 (eosusdstats.timestamp last + one_minute) <= current_time h
  end.
Proof.
  intros H. apply write_done in H. destruct H as [_ [_ [_ [db1 [Hc Hu]]]]].
  pose proof (check_last_push_frame h owner db db1 Hc) as [_ Ho].
  apply check_last_push_result in Hc. destruct Hc as [Hf [Hother Hrate]].
  apply update_frame in Hu. destruct Hu as [Hs Ho'].
  rewrite Hs, Ho'. split; [exact Ho|]. split; [exact Hf|]. split; assumption.
Qed.

(** ** Refusal and acceptance of [write] *)

Lemma check_last_push_passes (h : host) (owner : account_name) (db : database) :
  match find owner (statstable db) with
  | None => True
  | Some last => wrap64 (eosusdstats.timestamp last + one_minute) <= current_time h
  end ->
  exists db1, check_last_push h owner db = Done tt db1.
Proof.
  destruct (find owner (statstable db)) as [last|] eqn:E; intros Hrate.
  - rewrite (check_last_push_again h owner db last E).
    replace (wrap64 (eosusdstats.timestamp last + one_minute) <=? current_time h)
      with true by (symmetry; apply Z.leb_le; exact Hrate).
    eexists. reflexivity.
  - destruct (check_last_push_first h owner db E) as [t' [_ Hc]].
    eexists. exact Hc.
Qed.

(** X1.  Along every history a refused [write] has touched nothing, and
    its message names the first check that failed, the checks being made
    in the order: authority of the owner, range of the value,
    qualification of the owner, time since the owner's last write. *)
Theorem refused_write_names_first_failed_check
  (history : list (host * call)) (h : host) (owner : account_name) (value : Z)
  (m : string) (db' : database) :
  write h owner value (replay history empty_database) = Abort m db' ->
  db' = replay history empty_database /\
  ((has_auth h owner = false /\ m = "missing required authority"%string) \/
   (has_auth h owner = true /\
    ~ val_min <= value <= val_max /\ m = out_of_range) \/
   (has_auth h owner = true /\
    val_min <= value <= val_max /\
    check_oracle h owner db' = Done false db' /\ m = not_qualified) \/
   (has_auth h owner = true /\
    val_min <= value <= val_max /\
    check_oracle h owner db' = Done true db' /\
    (exists last,
       find owner (statstable db') = Some last /\
       current_time h < wrap64 (eosusdstats.timestamp last + one_minute)) /\
    m = too_early)).
Proof.
  destruct (history_window history) as [Hinv _].
  revert Hinv. generalize (replay history empty_database). intros db Hinv.
  intros H. unfold write, require_auth in H.
  apply bind_abort in H. destruct H as [H|[[] [d1 [H1 H]]]].
  { apply eosio_assert_abort in H. destruct H as [Ha [-> ->]].
    split; [reflexivity|]. left. split; [exact Ha|reflexivity]. }
  apply eosio_assert_done in H1. destruct H1 as [Hauth ->].
  apply bind_abort in H. destruct H as [H|[[] [d2 [H2 H]]]].
  { apply eosio_assert_abort in H. destruct H as [Hr [-> ->]].
    split; [reflexivity|]. right. left. split; [exact Hauth|].
    split; [|reflexivity]. intros Hv.
    apply andb_false_iff in Hr. destruct Hr as [Hr|Hr];
      [apply Z.leb_gt in Hr|apply Z.leb_gt in Hr]; lia. }
  apply eosio_assert_done in H2. destruct H2 as [Hrange ->].
  apply andb_true_iff in Hrange.
  assert (Hv : val_min <= value <= val_max) by lia.
  destruct (check_oracle_pure h owner db) as [b Hb].
  apply bind_abort in H. destruct H as [H|[q [d3 [H3 H]]]].
  { rewrite Hb in H. discriminate H. }
  rewrite Hb in H3. injection H3 as <- <-.
  apply bind_abort in H. destruct H as [H|[[] [d4 [H4 H]]]].
  { apply eosio_assert_abort in H. destruct H as [Hq [-> ->]]. subst b.
    split; [reflexivity|]. right. right. left. repeat split; try assumption; lia. }
  apply eosio_assert_done in H4. destruct H4 as [Hq ->]. subst b.
  apply bind_abort in H. destruct H as [H|[[] [d5 [H5 H]]]].
  { pose proof H as H'. apply check_last_push_abort in H'.
    destruct H' as [-> [Hdb [last Hl]]]. subst db'.
    split; [reflexivity|]. right. right. right.
    split; [exact Hauth|]. split; [exact Hv|]. split; [exact Hb|].
    split; [|reflexivity]. exists last. split; [exact Hl|].
    rewrite (check_last_push_again h owner db last Hl) in H.
    destruct (Z.leb_spec (wrap64 (eosusdstats.timestamp last + one_minute))
                (current_time h)); [discriminate H|assumption]. }
  exfalso. apply check_last_push_frame in H5. destruct H5 as [Hsame _].
  rewrite <- Hsame in Hinv.
  destruct (update_keeps_inv h owner value d5 Hinv) as [d6 [Hup _]].
  rewrite Hup in H. discriminate H.
Qed.

Lemma refused_write_names_first_failed_check_witness :
  db_after 1 = replay (approve :: minute_writes 1) empty_database /\
  ((has_auth (host_at 61 alice) alice = false /\
    too_early = "missing required authority"%string) \/
   (has_auth (host_at 61 alice) alice = true /\
    ~ val_min <= 500 <= val_max /\ too_early = out_of_range) \/
   (has_auth (host_at 61 alice) alice = true /\
    val_min <= 500 <= val_max /\
    check_oracle (host_at 61 alice) alice (db_after 1) = Done false (db_after 1) /\
    too_early = not_qualified) \/
   (has_auth (host_at 61 alice) alice = true /\
    val_min <= 500 <= val_max /\
    check_oracle (host_at 61 alice) alice (db_after 1) = Done true (db_after 1) /\
    (exists last,
       find alice (statstable (db_after 1)) = Some last /\
       current_time (host_at 61 alice)
       < wrap64 (eosusdstats.timestamp last + one_minute)) /\
    too_early = too_early)).
Proof.
  apply (refused_write_names_first_failed_check
           (approve :: minute_writes 1) (host_at 61 alice) alice 500
           too_early (db_after 1)).
  vm_compute. reflexivity.
Defined.

(** X2.  Along every history [write] runs to the end exactly when its
    four checks pass: the owner authorised it, the value is within
    [val_min, val_max], the owner is qualified, and the owner has no row
    in [statstable] or a row whose time plus [one_minute] (in 64-bit
    arithmetic) is not after the current time.  In particular
    [update_eosusd_oracle] never stops a [write]. *)
Theorem write_runs_iff_checks_pass
  (history : list (host * call)) (h : host) (owner : account_name) (value : Z) :
  (exists db', write h owner value (replay history empty_database) = Done tt db') <->
  has_auth h owner = true /\
  val_min <= value <= val_max /\
  check_oracle h owner (replay history empty_database)
  = Done true (replay history empty_database) /\
  match find owner (statstable (replay history empty_database)) with
  | None => True
  | Some last => wrap64 (eosusdstats.timestamp last + one_minute) <= current_time h
  end.
Proof.
  destruct (history_window history) as [Hinv _].
  revert Hinv. generalize (replay history empty_database). intros db Hinv.
  split.
  - intros [db' H]. pose proof (write_stats h owner value db db' H) as [_ [_ [_ Hrate]]].
    apply write_done in H. destruct H as [Hauth [Hv [Hq _]]].
    split; [exact Hauth|]. split; [exact Hv|]. split; [exact Hq|exact Hrate].
  - intros [Hauth [Hv [Hq Hrate]]].
    destruct (check_last_push_passes h owner db Hrate) as [db1 Hc].
    rewrite (write_steps h owner value db Hauth Hv Hq).
    unfold bind. rewrite Hc.
    apply check_last_push_frame in Hc. destruct Hc as [Hsame _].
    rewrite <- Hsame in Hinv.
    destruct (update_keeps_inv h owner value db1 Hinv) as [db' [Hup _]].
    exists db'. exact Hup.
Qed.

Lemma write_runs_iff_checks_pass_witness :
  exists db', write (host_at 115 alice) alice 500 (db_after 1) = Done tt db'.
Proof.
  apply (proj2 (write_runs_iff_checks_pass
                  (approve :: minute_writes 1) (host_at 115 alice) alice 500)).
  split; [vm_compute; reflexivity|].
  split; [vm_compute; split; congruence|].
  split; [vm_compute; reflexivity|].
  vm_compute. congruence.
Defined.

(** ** The window below its capacity *)

(** X3.  Along every history, a [write] that runs to the end while the
    window holds fewer than 21 datapoints removes nothing: it puts the
    new datapoint in front of the others, with the key [uint64_max] in
    an empty window and the newest key minus one otherwise, and with
    its own value as average. *)
Theorem write_below_capacity_prepends
  (history : list (host * call)) (h : host) (owner : account_name) (value : Z)
  (db' : database) :
  (length (usdtable (replay history empty_database)) < 21)%nat ->
  write h owner value (replay history empty_database) = Done tt db' ->
  usdtable db'
  = {| eosusd.id :=
         match begin (usdtable (replay history empty_database)) with
         | None => uint64_max
         | Some newest => eosusd.id newest - 1
         end;
       eosusd.owner := owner;
       eosusd.value := value;
       eosusd.average := value;
       eosusd.timestamp := current_time h |}
    :: usdtable (replay history empty_database).
Proof.
  destruct (history_window history) as [Hinv _].
  revert Hinv. generalize (replay history empty_database). intros db Hinv Hlen Hw.
  apply write_done in Hw. destruct Hw as [_ [_ [_ [db1 [Hc Hu]]]]].
  apply check_last_push_frame in Hc. destruct Hc as [Hsame _].
  rewrite <- Hsame in *.
  destruct Hinv as [Hwk [_ Hnew]].
  destruct (usdtable db1) as [|newest rest] eqn:E.
  - rewrite (update_empty h owner value db1 E) in Hu. injection Hu as <-.
    reflexivity.
  - specialize (Hnew Hlen newest eq_refl).
    assert (Hid : 0 < eosusd.id newest < uint64_modulus).
    { rewrite Hnew. cbn [length] in *. unfold uint64_modulus. lia. }
    rewrite (update_partial h owner value db1 newest rest E) in Hu;
      [|cbn [length] in Hlen; lia|exact Hid].
    injection Hu as <-. reflexivity.
Qed.

Lemma write_below_capacity_prepends_witness :
  usdtable (db_after 3)
  = {| eosusd.id :=
         match begin (usdtable (db_after 2)) with
         | None => uint64_max
         | Some newest => eosusd.id newest - 1
         end;
       eosusd.owner := alice;
       eosusd.value := 300;
       eosusd.average := 300;
       eosusd.timestamp := current_time (host_at 180 alice) |}
    :: usdtable (db_after 2).
Proof.
  apply (write_below_capacity_prepends
           (approve :: minute_writes 2) (host_at 180 alice) alice 300 (db_after 3)).
  - vm_compute. lia.
  - vm_compute. reflexivity.
Defined.

(** ** Stored values and averages *)

Lemma sum_between (l : list Z) (m M : Z) :
  Forall (fun x => m <= x <= M) l ->
  m * Z.of_nat (length l) <= sum l <= M * Z.of_nat (length l).
Proof.
  induction 1 as [|x l Hx Hl IH]; cbn [sum fold_right length]; [lia|].
  fold (sum l). rewrite Nat2Z.inj_succ. lia.
Qed.

Lemma trimmed_average_in_range (t : list eosusd.row) :
  length t = 21%nat ->
  Forall (fun r => val_min <= eosusd.value r <= val_max) t ->
  val_min <= trimmed_average t <= val_max.
Proof.
  intros Hlen Hall.
  assert (Hr : Forall (fun x => val_min <= x <= val_max) (ranked t)).
  { eapply Permutation_Forall; [apply Permutation_sym, ranked_perm|].
    unfold values. apply Forall_map. exact Hall. }
  assert (Hl : length (ranked t) = 21%nat).
  { rewrite (Permutation_length (ranked_perm t)). unfold values.
    rewrite length_map. exact Hlen. }
  pose proof (sum_between _ _ _ (firstn_skipn_Forall _ 9 6 _ Hr)) as Hb.
  assert (Hn : length (firstn 9 (skipn 6 (ranked t))) = 9%nat).
  { rewrite length_firstn, length_skipn, Hl. reflexivity. }
  rewrite Hn in Hb. unfold trimmed_average.
  rewrite wrap64_small by (unfold val_min, val_max, uint64_modulus in *; lia).
  unfold val_min, val_max in *.
  split; [apply Z.div_le_lower_bound|apply Z.div_le_upper_bound]; lia.
Qed.

Lemma update_stored_in_range
  (h : host) (owner : account_name) (value : Z) (db db' : database) :
  window_inv (usdtable db) ->
  Forall stored_in_range (usdtable db) ->
  val_min <= value <= val_max ->
  update_eosusd_oracle h owner value db = Done tt db' ->
  Forall stored_in_range (usdtable db').
Proof.
  intros [Hwk [Hlen Hnew]] Hall Hv Hup.
  destruct (usdtable db) as [|newest rest] eqn:E.
  - rewrite (update_empty h owner value db E) in Hup. injection Hup as <-.
    cbn [usdtable with_usdtable]. constructor; [split; exact Hv|constructor].
  - destruct (Nat.eq_dec (length (newest :: rest)) 21) as [Hfull|Hpart].
    + assert (Hwk' : well_keyed (usdtable db) = true) by (rewrite E; exact Hwk).
      assert (Hlen' : length (usdtable db) = 21%nat) by (rewrite E; exact Hfull).
      destruct (update_full h owner value db Hwk' Hlen')
        as [nw [oldest [t' [_ [Hsplit [_ [Hem Hup']]]]]]].
      rewrite Hup in Hup'. injection Hup' as ->. cbn [usdtable with_usdtable].
      pose proof (emplace_perm _ _ _ Hem) as P.
      rewrite E in Hsplit. rewrite Hsplit in Hall, Hfull. rewrite E in P.
      apply Forall_app in Hall. destruct Hall as [Hrest _].
      assert (Ht' : length t' = 21%nat).
      { rewrite (Permutation_length P). rewrite length_app in Hfull.
        cbn [length] in *. lia. }
      assert (Hvals : Forall (fun r => val_min <= eosusd.value r <= val_max) t').
      { eapply Permutation_Forall; [apply Permutation_sym; exact P|].
        constructor; [exact Hv|].
        eapply Forall_impl; [|exact Hrest]. intros r [Hr _]. exact Hr. }
      eapply Permutation_Forall; [apply Permutation_sym; exact P|].
      constructor; [|exact Hrest].
      split; [exact Hv|]. cbn [eosusd.average].
      apply trimmed_average_in_range; assumption.
    + assert (Hl : (length (newest :: rest) < 21)%nat) by lia.
      specialize (Hnew Hl newest eq_refl).
      assert (Hid : 0 < eosusd.id newest < uint64_modulus).
      { rewrite Hnew. cbn [length] in *. unfold uint64_modulus. lia. }
      rewrite (update_partial h owner value db newest rest E) in Hup;
        [|cbn [length] in Hl; lia|exact Hid].
      injection Hup as <-. cbn [usdtable with_usdtable].
      constructor; [split; exact Hv|exact Hall].
Qed.

(** X4.  Along every history, every datapoint of the window holds a
    value and an average within [val_min, val_max]: the range check of
    [write] bounds the values, and an average is either the value of
    its datapoint or the floor of the mean of nine values of the
    window. *)
Theorem stored_values_and_averages_are_in_range (history : list (host * call)) :
  Forall (fun r => val_min <= eosusd.value r <= val_max /\
                   val_min <= eosusd.average r <= val_max)
         (usdtable (replay history empty_database)).
Proof.
  change (Forall stored_in_range (usdtable (replay history empty_database))).
  assert (H : forall db,
             window_inv (usdtable db) /\ Forall stored_in_range (usdtable db) ->
             Forall stored_in_range (usdtable (replay history db))).
  { induction history as [|[h c] history IH]; intros db Hdb; [apply Hdb|].
    cbn [replay]. apply IH. destruct Hdb as [Hinv Hall].
    split; [apply run_call_keeps_inv; exact Hinv|].
    destruct (run_call h c db) as [[] db'|m db'] eqn:E; [|exact Hall].
    cbn [commit]. destruct c as [owner value|l|]; cbn [run_call] in E.
    - apply write_done in E. destruct E as [_ [Hv [_ [db1 [Hc Hu]]]]].
      apply check_last_push_frame in Hc. destruct Hc as [Hw _].
      rewrite <- Hw in Hinv, Hall.
      apply (update_stored_in_range h owner value db1 db' Hinv Hall Hv Hu).
    - apply setoracles_frame in E. destruct E as [-> _]. exact Hall.
    - destruct (has_auth h titan_account) eqn:Ha.
      + rewrite (clear_done h db Ha) in E. injection E as <-. constructor.
      + rewrite (clear_abort h db Ha) in E. discriminate E. }
  apply H. split; [apply empty_window_inv|constructor].
Qed.

(** ** The rate limit along a history *)

Lemma run_call_keeps_row (owner : account_name) (h : host) (c : call) (db : database) :
  keeps_row owner c = true ->
  find owner (statstable (commit db (run_call h c db))) = find owner (statstable db).
Proof.
  intros Hk. destruct (run_call h c db) as [[] db'|m db'] eqn:E; [|reflexivity].
  cbn [commit]. destruct c as [w v|l|]; cbn [run_call keeps_row] in *.
  - apply write_stats in E. destruct E as [_ [_ [Hother _]]].
    apply Hother. apply negb_true_iff in Hk. apply Z.eqb_neq in Hk. congruence.
  - apply setoracles_frame in E. destruct E as [_ ->]. reflexivity.
  - discriminate Hk.
Qed.

Lemma replay_keeps_row (owner : account_name) (between : list (host * call))
  (db : database) :
  forallb (fun hc => keeps_row owner (snd hc)) between = true ->
  find owner (statstable (replay between db)) = find owner (statstable db).
Proof.
  revert db. induction between as [|[h c] between IH]; intros db Hall; [reflexivity|].
  cbn [forallb snd] in Hall. apply andb_true_iff in Hall. destruct Hall as [Hc Hall].
  cbn [replay]. rewrite (IH _ Hall). apply run_call_keeps_row. exact Hc.
Qed.

(** X5.  Between two writes of the same account that both ran to the
    end, with no [clear] and no other write of that account in between,
    at least [one_minute] (55,000,000 microseconds) has passed on the
    host's clock, whatever the other accounts and [setoracles] did in
    between.  The time of the first write plus [one_minute] is taken to
    fit 64 bits. *)
Theorem consecutive_writes_are_spaced
  (h1 h2 : host) (owner : account_name) (v1 v2 : Z)
  (between : list (host * call)) (db db1 db2 : database) :
  forallb (fun hc => keeps_row owner (snd hc)) between = true ->
  0 <= current_time h1 ->
  current_time h1 + one_minute < 2 ^ 64 ->
  write h1 owner v1 db = Done tt db1 ->
  write h2 owner v2 (replay between db1) = Done tt db2 ->
  current_time h1 + one_minute <= current_time h2.
Proof.
  intros Hquiet H0 Hfit Hw1 Hw2.
  change (2 ^ 64) with uint64_modulus in Hfit.
  apply write_stats in Hw1. destruct Hw1 as [_ [Hrow _]].
  apply write_stats in Hw2. destruct Hw2 as [_ [_ [_ Hrate]]].
  rewrite (replay_keeps_row owner between db1 Hquiet), Hrow in Hrate.
  cbn [eosusdstats.timestamp] in Hrate.
  rewrite wrap64_small in Hrate by (unfold one_minute in *; lia).
  exact Hrate.
Qed.

Lemma consecutive_writes_are_spaced_witness :
  current_time (host_at 60 alice) + one_minute <= current_time (host_at 115 alice).
Proof.
  apply (consecutive_writes_are_spaced
           (host_at 60 alice) (host_at 115 alice) alice 100 300
           [(host_at 70 bob, Write bob 200);
            (host_at 80 titan_account, Setoracles [alice])]
           (db_after 0) (db_after 1)
           (commit (db_after 1)
              (write (host_at 115 alice) alice 300
                 (replay [(host_at 70 bob, Write bob 200);
                          (host_at 80 titan_account, Setoracles [alice])]
                    (db_after 1))))).
  - vm_compute. reflexivity.
  - vm_compute. congruence.
  - vm_compute. reflexivity.
  - vm_compute. reflexivity.
  - vm_compute. reflexivity.
Defined.

Lemma accepted_writes_tally (owner : account_name) (history : list (host * call)) :
  forall (db : database) (n : nat),
    match find owner (statstable db) with
    | None => n = 0%nat
    | Some s => (0 < n)%nat /\ eosusdstats.count s = wrap64 (Z.of_nat n - 1)
    end ->
    match find owner (statstable (replay history db)) with
    | None => accepted_writes owner history db n = 0%nat
    | Some s =>
        (0 < accepted_writes owner history db n)%nat /\
        eosusdstats.count s = wrap64 (Z.of_nat (accepted_writes owner history db n) - 1)
    end.
Proof.
  induction history as [|[h c] history IH]; intros db n Hdb; [exact Hdb|].
  cbn [replay accepted_writes]. apply IH.
  destruct (run_call h c db) as [[] db'|m db'] eqn:E; [|destruct c; exact Hdb].
  cbn [commit]. destruct c as [w v|l|]; cbn [run_call] in E.
  - apply write_stats in E. destruct E as [_ [Hrow [Hother _]]].
    destruct (Z.eqb_spec w owner) as [->|Hne].
    + rewrite Hrow. cbn [eosusdstats.count]. split; [lia|].
      destruct (find owner (statstable db)) as [last|].
      * destruct Hdb as [Hn Hc]. rewrite Hc, wrap64_add_l. f_equal. lia.
      * subst n. reflexivity.
    + rewrite (Hother owner) by congruence. exact Hdb.
  - apply setoracles_frame in E. destruct E as [_ ->]. exact Hdb.
  - destruct (has_auth h titan_account) eqn:Ha.
    + rewrite (clear_done h db Ha) in E. injection E as <-. reflexivity.
    + rewrite (clear_abort h db Ha) in E. discriminate E.
Qed.

(** X6.  Along every history, an account has a row in [statstable]
    exactly when one of its writes ran to the end since the last
    [clear], and the count of the row is the number of these writes
    minus one (modulo 2^64): the first write stores 0 and each later one
    adds 1. *)
Theorem write_count_is_one_less_than_writes
  (history : list (host * call)) (owner : account_name) :
  match find owner (statstable (replay history empty_database)) with
  | None => accepted_writes owner history empty_database 0 = 0%nat
  | Some s =>
      (0 < accepted_writes owner history empty_database 0)%nat /\
      eosusdstats.count s
      = (Z.of_nat (accepted_writes owner history empty_database 0) - 1) mod 2 ^ 64
  end.
Proof.
  apply (accepted_writes_tally owner history empty_database 0). reflexivity.
Qed.

(** X7.  Along every history, a [write] that ran to the end has stamped
    the current time twice, on the row of its owner in [statstable] and
    on a datapoint of the window that carries the owner and the value;
    the rows of the other accounts and the approved oracles are as
    before. *)
Theorem accepted_write_records
  (history : list (host * call)) (h : host) (owner : account_name) (value : Z)
  (db' : database) :
  write h owner value (replay history empty_database) = Done tt db' ->
  (exists s,
     find owner (statstable db') = Some s /\
     eosusdstats.timestamp s = current_time h) /\
  (exists new,
     In new (usdtable db') /\
     eosusd.owner new = owner /\
     eosusd.value new = value /\
     eosusd.timestamp new = current_time h) /\
  (forall other, other <> owner ->
     find other (statstable db')
     = find other (statstable (replay history empty_database))) /\
  oraclestable db' = oraclestable (replay history empty_database).
Proof.
  destruct (history_window history) as [Hinv _].
  revert Hinv. generalize (replay history empty_database). intros db Hinv Hw.
  pose proof (write_stats h owner value db db' Hw) as [Ho [Hrow [Hother _]]].
  split; [eexists; split; [exact Hrow|reflexivity]|].
  split; [|split; assumption].
  apply write_done in Hw. destruct Hw as [_ [_ [_ [db1 [Hc Hu]]]]].
  apply check_last_push_frame in Hc. destruct Hc as [Hsame _].
  rewrite <- Hsame in Hinv. destruct Hinv as [Hwk [Hlen _]].
  destruct (usdtable db1) as [|newest rest] eqn:E.
  - rewrite (update_empty h owner value db1 E) in Hu. injection Hu as <-.
    eexists. split; [left; reflexivity|]. repeat split; reflexivity.
  - assert (Hwk' : well_keyed (usdtable db1) = true) by (rewrite E; exact Hwk).
    assert (Hlen' : (length (usdtable db1) <= 21)%nat) by (rewrite E; exact Hlen).
    assert (Hb : begin (usdtable db1) = Some newest) by (rewrite E; reflexivity).
    destruct (update_new_row h owner value db1 db' newest Hwk' Hlen' Hb Hu)
      as [new [Hf [_ [Hown [Hval Htime]]]]].
    exists new. split; [eapply find_in; exact Hf|]. repeat split; assumption.
Qed.

Lemma accepted_write_records_witness :
  (exists s,
     find alice (statstable (db_after 2)) = Some s /\
     eosusdstats.timestamp s = current_time (host_at 120 alice)) /\
  (exists new,
     In new (usdtable (db_after 2)) /\
     eosusd.owner new = alice /\
     eosusd.value new = 200 /\
     eosusd.timestamp new = current_time (host_at 120 alice)) /\
  (forall other, other <> alice ->
     find other (statstable (db_after 2))
     = find other (statstable (replay (approve :: minute_writes 1) empty_database))) /\
  oraclestable (db_after 2)
  = oraclestable (replay (approve :: minute_writes 1) empty_database).
Proof.
  apply (accepted_write_records
           (approve :: minute_writes 1) (host_at 120 alice) alice 200 (db_after 2)).
  vm_compute. reflexivity.
Defined.

(** ** The approved oracles and the controlling account *)

(** X8.  One action changes the approved oracles only if it is a
    [setoracles] or a [clear] that the controlling account authorised:
    a [write] never changes them, and without that authority
    [setoracles] and [clear] change nothing. *)
Theorem only_titan_changes_the_oracles (h : host) (c : call) (db : database) :
  oraclestable (commit db (run_call h c db)) <> oraclestable db ->
  has_auth h titan_account = true /\
  match c with
  | Write _ _ => False
  | Setoracles _ | Clear => True
  end.
Proof.
  intros Hne. destruct c as [owner value|l|]; cbn [run_call] in Hne.
  - exfalso. apply Hne.
    destruct (write h owner value db) as [[] db'|m db'] eqn:E; [|reflexivity].
    apply write_stats in E. apply E.
  - split; [|exact I]. destruct (has_auth h titan_account) eqn:Ha; [reflexivity|].
    exfalso. apply Hne. unfold setoracles, require_auth, bind, eosio_assert.
    rewrite Ha. reflexivity.
  - split; [|exact I]. destruct (has_auth h titan_account) eqn:Ha; [reflexivity|].
    exfalso. apply Hne. rewrite (clear_abort h db Ha). reflexivity.
Qed.

Lemma only_titan_changes_the_oracles_witness :
  has_auth (host_at 9 titan_account) titan_account = true /\ True.
Proof.
  apply (only_titan_changes_the_oracles
           (host_at 9 titan_account) (Setoracles [eosio]) (db_after 0)).
  vm_compute. discriminate.
Defined.

(** X10.  After a [setoracles] that ran to the end with a list without
    repetition, [check_oracle] answers [true] for every name of the
    list, whatever the producers are, and for a nonzero name that is
    not in the list exactly when it is one of the first 21 active
    producers: the oracles approved before have no say any more. *)
Theorem setoracles_then_check_oracle
  (h : host) (oracleslist : list account_name) (db : database) :
  has_auth h titan_account = true ->
  NoDup oracleslist ->
  exists db',
    setoracles h oracleslist db = Done tt db' /\
    forall (h' : host) (a : account_name),
      (In a oracleslist -> check_oracle h' a db' = Done true db') /\
      (~ In a oracleslist -> a <> 0 ->
       (check_oracle h' a db' = Done true db' <->
        In a (firstn 21 (active_producers h')))).
Proof.
  intros Hauth Hnd.
  assert (Hrun : setoracles h oracleslist db
                 = emplace_oracles oracleslist (with_oraclestable [] db)).
  { unfold setoracles, require_auth, bind, eosio_assert. rewrite Hauth.
    rewrite erase_all_empty. reflexivity. }
  destruct (emplace_oracles_all oracleslist (with_oraclestable [] db) eq_refl)
    as [Hok _].
  destruct Hok as [t [Hdone [_ Hmem]]].
  { split; [exact Hnd|]. intros a _ H. exact H. }
  exists (with_oraclestable t db). split; [rewrite Hrun; exact Hdone|].
  assert (Hin : forall a, in_allow_list a (with_oraclestable t db) <-> In a oracleslist).
  { intros a. unfold in_allow_list at 1. cbn [oraclestable with_oraclestable].
    rewrite Hmem. unfold in_allow_list. cbn [oraclestable with_oraclestable map In].
    tauto. }
  intros h' a. split.
  - intros Ha. unfold check_oracle.
    replace (approved a (oraclestable (with_oraclestable t db))) with true;
      [reflexivity|].
    symmetry. apply approved_iff. apply Hin. exact Ha.
  - intros Hout Hnz.
    destruct (check_oracle_nonzero h' a (with_oraclestable t db) Hnz) as [b [Hb Hiff]].
    rewrite Hb. split.
    + intros [= ->]. destruct (proj1 Hiff eq_refl) as [H|H]; [|exact H].
      apply Hin in H. contradiction.
    + intros H. f_equal. apply Hiff. right. exact H.
Qed.

Lemma setoracles_then_check_oracle_witness :
  exists db',
    setoracles (host_at 9 titan_account) [bob] (db_after 1) = Done tt db' /\
    forall (h' : host) (a : account_name),
      (In a [bob] -> check_oracle h' a db' = Done true db') /\
      (~ In a [bob] -> a <> 0 ->
       (check_oracle h' a db' = Done true db' <->
        In a (firstn 21 (active_producers h')))).
Proof.
  apply (setoracles_then_check_oracle (host_at 9 titan_account) [bob] (db_after 1)).
  - vm_compute. reflexivity.
  - repeat constructor. intros H. exact H.
Defined.

Lemma replay_app (before after : list (host * call)) (db : database) :
  replay (before ++ after) db = replay after (replay before db).
Proof.
  revert db. induction before as [|[h c] before IH]; intros db; [reflexivity|].
  cbn [app replay]. apply IH.
Qed.

(** X12.  A [clear] that the controlling account authorised forgets the
    past: whatever happened before it, the history that follows leads
    to the same database as from the empty database. *)
Theorem clear_forgets_the_past
  (before after : list (host * call)) (h : host) (db : database) :
  has_auth h titan_account = true ->
  replay (before ++ (h, Clear) :: after) db = replay after empty_database.
Proof.
  intros Hauth. rewrite replay_app. cbn [replay run_call].
  rewrite (clear_done h _ Hauth). reflexivity.
Qed.

Lemma clear_forgets_the_past_witness :
  replay ((approve :: minute_writes 3)
          ++ (host_at 200 titan_account, Clear) :: minute_writes 2) empty_database
  = replay (minute_writes 2) empty_database.
Proof.
  apply (clear_forgets_the_past (approve :: minute_writes 3) (minute_writes 2)
           (host_at 200 titan_account) empty_database).
  vm_compute. reflexivity.
Defined.

(** ** The keys of the window *)

(** X13.  The key that [update_eosusd_oracle] computes never collides.
    Take the window that any history leaves, from the empty database or
    from any database whose window is as histories leave it, and let
    [latest] be its [begin()] and [oldest] its last row.  The rows
    present at the moment of the [emplace] are those of the window,
    [oldest] taken out if the window is full.  None of them carries the
    key [latest->id - 1] of the new datapoint, so that the [emplace]
    puts it in and [update_eosusd_oracle] runs to the end.  This holds
    also when the subtraction wraps: the key is then [2^64 - 1], no key
    is above it, and every row present is below [oldest], the one row
    that may carry that key and that has just been taken out. *)
Theorem new_key_never_collides
  (history : list (host * call)) (db0 : database)
  (h : host) (owner : account_name) (value : Z)
  (latest oldest : eosusd.row) :
  window_inv (usdtable db0) ->
  begin (usdtable (replay history db0)) = Some latest ->
  back (usdtable (replay history db0)) = Some oldest ->
  exists present new t',
    present
    = (if datapoints_count <? Z.of_nat (length (usdtable (replay history db0))) + 1
       then erase (eosusd.id oldest) (usdtable (replay history db0))
       else usdtable (replay history db0)) /\
    ~ In (wrap64 (eosusd.id latest - 1)) (map eosusd.id present) /\
    (eosusd.id latest = 0 ->
     wrap64 (eosusd.id latest - 1) = uint64_max /\
     eosusd.id oldest <= uint64_max /\
     Forall (fun r => eosusd.id r < eosusd.id oldest) present) /\
    eosusd.id new = wrap64 (eosusd.id latest - 1) /\
    emplace new present = Some t' /\
    update_eosusd_oracle h owner value (replay history db0)
    = Done tt (with_usdtable t' (replay history db0)).
Proof.
  intros Hinv0 Hb Hback.
  pose proof (replay_keeps_inv history db0 Hinv0) as Hinv.
  revert Hinv Hb Hback. generalize (replay history db0).
  intros db [Hwk [Hlen Hnew]] Hb Hback.
  destruct (well_keyed_inv _ Hwk) as [Hasc Hrange].
  pose proof (back_split _ _ Hback) as Hsplit'.
  destruct (Nat.eq_dec (length (usdtable db)) 21) as [Hfull|Hpart].
  - destruct (update_full h owner value db Hwk Hfull)
      as [nw [old [t' [Hb' [Hsplit [Hlt [Hem Hup]]]]]]].
    rewrite Hb in Hb'. injection Hb' as <-.
    assert (Heq : removelast (usdtable db) ++ [old]
                  = removelast (usdtable db) ++ [oldest]) by congruence.
    apply app_inj_tail in Heq. destruct Heq as [_ ->].
    assert (Hrasc : ascending (removelast (usdtable db)) = true).
    { rewrite Hsplit in Hasc. apply ascending_snoc in Hasc. apply Hasc. }
    exists (removelast (usdtable db)).
    exists {| eosusd.id := wrap64 (eosusd.id latest - 1); eosusd.owner := owner;
              eosusd.value := value; eosusd.average := trimmed_average t';
              eosusd.timestamp := current_time h |}.
    exists t'.
    split.
    { replace (datapoints_count <? Z.of_nat (length (usdtable db)) + 1) with true
        by (symmetry; apply Z.ltb_lt; rewrite Hfull; unfold datapoints_count; lia).
      assert (Hne : Forall (fun x : eosusd.row => primary_key x <> primary_key oldest)
                           (removelast (usdtable db))).
      { eapply Forall_impl; [|exact Hlt]. unfold key_lt. intros x Hx. lia. }
      pose proof (erase_snoc _ _ Hne) as He. rewrite <- Hsplit in He.
      symmetry. exact He. }
    split.
    { intros Hin. apply in_map_iff in Hin. destruct Hin as [x [Hx Hi]].
      rewrite (emplace_duplicate _ _ Hrasc) in Hem; [discriminate Hem|].
      apply Exists_exists. exists x. split; [exact Hi|exact Hx]. }
    split.
    { intros Hz. rewrite Hz. split; [reflexivity|].
      split; [|exact Hlt].
      rewrite Hsplit in Hrange. apply Forall_app in Hrange.
      destruct Hrange as [_ Hold]. inversion Hold as [|? ? Ho _]; subst.
      unfold uint64_max, uint64_modulus in *. lia. }
    split; [reflexivity|]. split; [exact Hem|exact Hup].
  - destruct (usdtable db) as [|newest rest] eqn:E; [discriminate|].
    injection Hb as Hn. subst newest.
    assert (Hl : (length (latest :: rest) < 21)%nat) by lia.
    specialize (Hnew Hl latest eq_refl).
    assert (Hid : 0 < eosusd.id latest < uint64_modulus).
    { rewrite Hnew. cbn [length] in *. unfold uint64_modulus. lia. }
    exists (latest :: rest).
    exists {| eosusd.id := eosusd.id latest - 1; eosusd.owner := owner;
              eosusd.value := value; eosusd.average := value;
              eosusd.timestamp := current_time h |}.
    eexists.
    split.
    { replace (datapoints_count <? Z.of_nat (length (latest :: rest)) + 1) with false
        by (symmetry; apply Z.ltb_ge; unfold datapoints_count; lia).
      reflexivity. }
    split.
    { rewrite wrap64_small by lia. intros Hin.
      apply in_map_iff in Hin. destruct Hin as [x [Hx [Hi|Hi]]].
      - subst x. lia.
      - pose proof (ascending_head _ _ Hasc) as Hh.
        rewrite Forall_forall in Hh. specialize (Hh x Hi).
        unfold key_lt in Hh. change (primary_key x) with (eosusd.id x) in Hh.
        change (primary_key latest) with (eosusd.id latest) in Hh. lia. }
    split; [intros Hz; lia|].
    split; [|split; [|apply (update_partial h owner value db latest rest E);
                       [cbn [length] in Hl; lia|exact Hid]]].
    + cbn [eosusd.id]. symmetry. apply wrap64_small. lia.
    + apply emplace_front. unfold primary_key, eosusd_key. cbn [eosusd.id]. lia.
Qed.

Lemma new_key_never_collides_witness :
  exists present new t',
    present
    = (if datapoints_count
          <? Z.of_nat
               (length (usdtable (replay [(host_at 9999 eosio, Write eosio 5000)]
                                    wrapped_db))) + 1
       then erase (eosusd.id {| eosusd.id := uint64_max; eosusd.owner := eosio;
                                eosusd.value := 5000; eosusd.average := 1200;
                                eosusd.timestamp := 9999000000 |})
                  (usdtable (replay [(host_at 9999 eosio, Write eosio 5000)]
                               wrapped_db))
       else usdtable (replay [(host_at 9999 eosio, Write eosio 5000)] wrapped_db)) /\
    ~ In (wrap64 (eosusd.id {| eosusd.id := 0; eosusd.owner := alice;
                               eosusd.value := 2100; eosusd.average := 2100;
                               eosusd.timestamp := 1260000000 |} - 1))
         (map eosusd.id present) /\
    (eosusd.id {| eosusd.id := 0; eosusd.owner := alice;
                  eosusd.value := 2100; eosusd.average := 2100;
                  eosusd.timestamp := 1260000000 |} = 0 ->
     wrap64 (eosusd.id {| eosusd.id := 0; eosusd.owner := alice;
                          eosusd.value := 2100; eosusd.average := 2100;
                          eosusd.timestamp := 1260000000 |} - 1) = uint64_max /\
     eosusd.id {| eosusd.id := uint64_max; eosusd.owner := eosio;
                  eosusd.value := 5000; eosusd.average := 1200;
                  eosusd.timestamp := 9999000000 |} <= uint64_max /\
     Forall (fun r => eosusd.id r
                      < eosusd.id {| eosusd.id := uint64_max; eosusd.owner := eosio;
                                     eosusd.value := 5000; eosusd.average := 1200;
                                     eosusd.timestamp := 9999000000 |})
            present) /\
    eosusd.id new
    = wrap64 (eosusd.id {| eosusd.id := 0; eosusd.owner := alice;
                           eosusd.value := 2100; eosusd.average := 2100;
                           eosusd.timestamp := 1260000000 |} - 1) /\
    emplace new present = Some t' /\
    update_eosusd_oracle (host_at 10060 bob) bob 6000
      (replay [(host_at 9999 eosio, Write eosio 5000)] wrapped_db)
    = Done tt (with_usdtable t'
                 (replay [(host_at 9999 eosio, Write eosio 5000)] wrapped_db)).
Proof.
  apply (new_key_never_collides
           [(host_at 9999 eosio, Write eosio 5000)] wrapped_db
           (host_at 10060 bob) bob 6000
           {| eosusd.id := 0; eosusd.owner := alice; eosusd.value := 2100;
              eosusd.average := 2100; eosusd.timestamp := 1260000000 |}
           {| eosusd.id := uint64_max; eosusd.owner := eosio; eosusd.value := 5000;
              eosusd.average := 1200; eosusd.timestamp := 9999000000 |}).
  - split; [vm_compute; reflexivity|]. split; [vm_compute; lia|].
    intros H. vm_compute in H. lia.
  - vm_compute. reflexivity.
  - vm_compute. reflexivity.
Defined.

Lemma last_cons_default {A : Type} (q p : A) (l : list A) :
  last (q :: l) p = last l q.
Proof.
  revert q p. induction l as [|x l IH]; intros q p; [reflexivity|].
  change (last (q :: x :: l) p) with (last (x :: l) p).
  rewrite (IH x p), (IH x q). reflexivity.
Qed.

(** One datapoint into a full window whose newest key is 0. *)
Lemma update_stuck (h : host) (owner : account_name) (value : Z) (db : database)
  (newest : eosusd.row) :
  well_keyed (usdtable db) = true ->
  length (usdtable db) = 21%nat ->
  begin (usdtable db) = Some newest ->
  eosusd.id newest = 0 ->
  exists new,
    update_eosusd_oracle h owner value db
    = Done tt (with_usdtable (removelast (usdtable db) ++ [new]) db) /\
    label new = (uint64_max, owner, value, current_time h) /\
    well_keyed (removelast (usdtable db) ++ [new]) = true /\
    begin (removelast (usdtable db) ++ [new]) = Some newest.
Proof.
  intros Hwk Hlen Hb Hz.
  destruct (update_full h owner value db Hwk Hlen)
    as [nw [oldest [t' [Hb' [Hsplit [Hlt [Hem Hup]]]]]]].
  rewrite Hb in Hb'. injection Hb' as <-.
  destruct (well_keyed_inv _ Hwk) as [Hasc Hrange].
  remember (removelast (usdtable db)) as base eqn:Hbase0. clear Hbase0.
  rewrite Hsplit in Hasc, Hrange.
  apply ascending_snoc in Hasc. destruct Hasc as [Hbase _].
  apply Forall_app in Hrange. destruct Hrange as [Hrb Hro].
  inversion Hro as [|? ? Hoid _]; subst.
  rewrite Hz in Hem. change (wrap64 (0 - 1)) with uint64_max in Hem.
  set (new := {| eosusd.id := uint64_max; eosusd.owner := owner;
                 eosusd.value := value; eosusd.average := trimmed_average t';
                 eosusd.timestamp := current_time h |}) in *.
  assert (Hbelow : Forall (fun x => key_lt x new) base).
  { eapply Forall_impl; [|exact Hlt]. unfold key_lt.
    intros r Hr. change (primary_key new) with uint64_max.
    change (primary_key oldest) with (eosusd.id oldest) in Hr.
    unfold uint64_max, uint64_modulus in *. lia. }
  rewrite (emplace_snoc new base Hbelow) in Hem. injection Hem as Ht'.
  exists new. split; [rewrite Ht'; exact Hup|]. split; [reflexivity|].
  assert (Hne : exists r1, base = newest :: r1).
  { assert (Hl : length base = 20%nat).
    { apply (f_equal (@length _)) in Hsplit. rewrite length_app in Hsplit.
      cbn [length] in Hsplit. lia. }
    rewrite Hsplit in Hb. destruct base as [|z r1]; [discriminate Hl|].
    injection Hb as ->. eexists. reflexivity. }
  destruct Hne as [r1 Hr1].
  split; [|rewrite Hr1; reflexivity].
  apply well_keyed_intro.
  - apply ascending_sorted.
    apply ascending_sorted in Hbase.
    clear - Hbase Hbelow. induction Hbase as [|x l Hl IH Hx].
    + repeat constructor.
    + inversion Hbelow; subst. cbn [app]. constructor; [apply IH; assumption|].
      apply Forall_app. split; [exact Hx|]. repeat constructor. assumption.
  - apply Forall_app. split; [exact Hrb|]. constructor; [|constructor].
    change (eosusd.id new) with uint64_max.
    unfold uint64_max, uint64_modulus. lia.
Qed.

(** X11.  Once the newest key of a full window is 0 the window is
    stuck: every further datapoint gets the key [2^64 - 1], which is the
    largest, so that it is the next one to be taken out.  After any
    number of further datapoints the 20 datapoints with the smallest
    keys are still those of before, [begin()] is still the datapoint
    with key 0, and only the last datapoint of the run is kept. *)
Theorem window_is_stuck_after_key_zero
  (p : host * account_name * Z) (points : list (host * account_name * Z))
  (db : database) (newest : eosusd.row) :
  well_keyed (usdtable db) = true ->
  length (usdtable db) = 21%nat ->
  begin (usdtable db) = Some newest ->
  eosusd.id newest = 0 ->
  exists new,
    insert_all (p :: points) db
    = Done tt (with_usdtable (removelast (usdtable db) ++ [new]) db) /\
    label new = (uint64_max,
                 snd (fst (last points p)),
                 snd (last points p),
                 current_time (fst (fst (last points p)))) /\
    begin (removelast (usdtable db) ++ [new]) = Some newest.
Proof.
  revert p db. induction points as [|q points IH]; intros [[h o] v] db Hwk Hlen Hb Hz.
  - destruct (update_stuck h o v db newest Hwk Hlen Hb Hz) as [new [Hup [Hlab [_ Hb']]]].
    exists new. split; [|split; [exact Hlab|exact Hb']].
    change (insert_all [(h, o, v)]) with (update_eosusd_oracle h o v ;; ret tt).
    unfold bind, ret. rewrite Hup. reflexivity.
  - destruct (update_stuck h o v db newest Hwk Hlen Hb Hz)
      as [new1 [Hup [_ [Hwk1 Hb1]]]].
    set (db1 := with_usdtable (removelast (usdtable db) ++ [new1]) db).
    assert (Hlen1 : length (usdtable db1) = 21%nat).
    { cbn [db1 usdtable with_usdtable]. rewrite length_app. cbn [length].
      assert (usdtable db <> []) by (destruct (usdtable db); discriminate).
      pose proof (app_removelast_last newest H) as Hs.
      apply (f_equal (@length _)) in Hs. rewrite length_app in Hs.
      cbn [length] in Hs. lia. }
    destruct (IH q db1 Hwk1 Hlen1 Hb1 Hz) as [new [Hrun [Hlab Hb2]]].
    cbn [db1 usdtable with_usdtable] in Hrun, Hb2.
    rewrite removelast_last in Hrun, Hb2.
    exists new. split; [|split; [|exact Hb2]].
    + change (insert_all ((h, o, v) :: q :: points))
        with (update_eosusd_oracle h o v ;; insert_all (q :: points)).
      unfold bind. rewrite Hup. fold db1. rewrite Hrun. reflexivity.
    + rewrite last_cons_default. exact Hlab.
Qed.

Lemma window_is_stuck_after_key_zero_witness :
  exists new,
    insert_all [(host_at 9999 alice, alice, 5000); (host_at 10060 bob, bob, 6000)]
      wrapped_db
    = Done tt (with_usdtable (removelast (usdtable wrapped_db) ++ [new]) wrapped_db) /\
    label new = (uint64_max, bob, 6000, current_time (host_at 10060 bob)) /\
    begin (removelast (usdtable wrapped_db) ++ [new])
    = Some {| eosusd.id := 0; eosusd.owner := alice; eosusd.value := 2100;
              eosusd.average := 2100; eosusd.timestamp := 1260000000 |}.
Proof.
  apply (window_is_stuck_after_key_zero
           (host_at 9999 alice, alice, 5000) [(host_at 10060 bob, bob, 6000)]
           wrapped_db
           {| eosusd.id := 0; eosusd.owner := alice; eosusd.value := 2100;
              eosusd.average := 2100; eosusd.timestamp := 1260000000 |}).
  - vm_compute. reflexivity.
  - vm_compute. reflexivity.
  - vm_compute. reflexivity.
  - reflexivity.
Defined.

(** ** The average and the extreme values *)

Lemma begin_removelast_length {R : Type} (t : list R) (r : R) :
  begin t = Some r -> S (length (removelast t)) = length t.
Proof.
  intros H. destruct t as [|x t]; [discriminate|]. clear H. revert x.
  induction t as [|y t IH]; intros x; [reflexivity|].
  change (removelast (x :: y :: t)) with (x :: removelast (y :: t)).
  cbn [length]. rewrite IH. reflexivity.
Qed.

Lemma sorted_skipn (n : nat) (l : list Z) :
  StronglySorted Z.le l -> StronglySorted Z.le (skipn n l).
Proof.
  revert l. induction n as [|n IH]; intros l H; [exact H|].
  destruct H as [|x l Hl Hx]; [constructor|]. cbn [skipn]. apply IH. exact Hl.
Qed.

Lemma sorted_firstn (n : nat) (l : list Z) :
  StronglySorted Z.le l -> StronglySorted Z.le (firstn n l).
Proof.
  intros H. revert n. induction H as [|x l Hl IH Hx]; intros [|n]; cbn [firstn];
    try constructor.
  - apply IH.
  - apply Forall_forall. intros y Hy. rewrite Forall_forall in Hx. apply Hx.
    clear - Hy. revert n Hy. induction l as [|z l IHl]; intros [|n] Hy;
      cbn [firstn] in Hy; try contradiction.
    destruct Hy as [->|Hy]; [left; reflexivity|right; eapply IHl; exact Hy].
Qed.

Lemma sorted_between_ends (a : Z) (l : list Z) :
  StronglySorted Z.le (a :: l) ->
  Forall (fun x => a <= x <= last l a) (a :: l).
Proof.
  revert a. induction l as [|b l IH]; intros a H.
  - repeat constructor; cbn [last]; lia.
  - inversion H as [|? ? Hl Ha]; subst.
    specialize (IH b Hl). rewrite last_cons_default.
    inversion Ha as [|? ? Hab Hal]; subst.
    inversion IH as [|? ? Hb _]; subst.
    constructor; [lia|].
    eapply Forall_impl; [|exact IH]. cbv beta. intros x Hx. lia.
Qed.

(** X14.  Along every history, a [write] that runs to the end on a full
    window takes out the last datapoint and stores the new one under the
    newest key minus one (in 64-bit arithmetic), with the owner, the
    value and the time of the call.  The average of that datapoint, the
    one found under that key afterwards, lies between the values ranked
    7th and 15th in the resulting window: the 6 smallest and the 6
    largest of the 21 values, the new one included, cannot pull it
    further. *)
Theorem average_lies_between_ranks_7_and_15
  (history : list (host * call)) (h : host) (owner : account_name) (value : Z)
  (db' : database) :
  length (usdtable (replay history empty_database)) = 21%nat ->
  write h owner value (replay history empty_database) = Done tt db' ->
  exists newest new,
    begin (usdtable (replay history empty_database)) = Some newest /\
    emplace new (removelast (usdtable (replay history empty_database)))
    = Some (usdtable db') /\
    find (wrap64 (eosusd.id newest - 1)) (usdtable db') = Some new /\
    eosusd.id new = wrap64 (eosusd.id newest - 1) /\
    eosusd.owner new = owner /\
    eosusd.value new = value /\
    eosusd.timestamp new = current_time h /\
    nth 6 (ranked (usdtable db')) 0 <= eosusd.average new
    <= nth 14 (ranked (usdtable db')) 0.
Proof.
  intros Hlen Hw.
  destruct (history_full_window_average history h owner value db' Hlen Hw)
    as [newest [new [Hb [Hem [Hf [Hid [Ho [Hv [Ht Havg]]]]]]]]].
  assert (Hlen' : length (usdtable db') = 21%nat).
  { pose proof (Permutation_length (emplace_perm _ _ _ Hem)) as Hp.
    pose proof (begin_removelast_length _ _ Hb) as Hr.
    cbn [length] in Hp. lia. }
  exists newest, new.
  split; [exact Hb|]. split; [exact Hem|]. split; [exact Hf|].
  split; [exact Hid|]. split; [exact Ho|]. split; [exact Hv|]. split; [exact Ht|].
  rewrite Havg.
  set (mid := firstn 9 (skipn 6 (ranked (usdtable db')))).
  assert (Hl : length (ranked (usdtable db')) = 21%nat).
  { rewrite (Permutation_length (ranked_perm _)). unfold values.
    rewrite length_map. exact Hlen'. }
  assert (Hm : length mid = 9%nat).
  { unfold mid. rewrite length_firstn, length_skipn, Hl. reflexivity. }
  assert (Hs : StronglySorted Z.le mid)
    by (apply sorted_firstn, sorted_skipn, ranked_sorted).
  assert (H0 : nth 0 mid 0 = nth 6 (ranked (usdtable db')) 0).
  { unfold mid. rewrite nth_firstn. cbn [Nat.ltb Nat.leb]. apply nth_skipn. }
  assert (H8 : nth 8 mid 0 = nth 14 (ranked (usdtable db')) 0).
  { unfold mid. rewrite nth_firstn. cbn [Nat.ltb Nat.leb]. apply nth_skipn. }
  clearbody mid.
  destruct mid as [|a [|b [|c [|d [|e [|f [|g [|i [|j [|k mid]]]]]]]]]];
    try discriminate Hm.
  pose proof (sorted_between_ends a _ Hs) as Hends.
  cbn [last nth] in Hends, H0, H8. rewrite <- H0, <- H8.
  pose proof (sum_between _ _ _ Hends) as Hb9. cbn [length] in Hb9.
  split; [apply Z.div_le_lower_bound|apply Z.div_le_upper_bound]; lia.
Qed.

Lemma average_lies_between_ranks_7_and_15_witness :
  exists newest new,
    begin (usdtable (db_after 21)) = Some newest /\
    emplace new (removelast (usdtable (db_after 21)))
    = Some (usdtable (commit (db_after 21)
                        (write (host_at 1320 alice) alice 1200 (db_after 21)))) /\
    find (wrap64 (eosusd.id newest - 1))
         (usdtable (commit (db_after 21)
                      (write (host_at 1320 alice) alice 1200 (db_after 21))))
    = Some new /\
    eosusd.id new = wrap64 (eosusd.id newest - 1) /\
    eosusd.owner new = alice /\
    eosusd.value new = 1200 /\
    eosusd.timestamp new = current_time (host_at 1320 alice) /\
    nth 6 (ranked (usdtable (commit (db_after 21)
                               (write (host_at 1320 alice) alice 1200 (db_after 21)))))
        0
    <= eosusd.average new
    <= nth 14 (ranked (usdtable (commit (db_after 21)
                                   (write (host_at 1320 alice) alice 1200
                                      (db_after 21)))))
           0.
Proof.
  apply (average_lies_between_ranks_7_and_15
           (approve :: minute_writes 21) (host_at 1320 alice) alice 1200
           (commit (db_after 21)
              (write (host_at 1320 alice) alice 1200 (db_after 21)))).
  - vm_compute. reflexivity.
  - vm_compute. reflexivity.
Defined.
